(** * Image sonification: the WAV codec of the sonification service

    A shallow embedding of the sonification service (image -> WAV ->
    image) and of the part of the page component that reports the
    compression ratio.

    Conventions of the embedding.
    - A JavaScript number that the program only ever uses as an integer
      is a [Z]; the one place where an operand may be [undefined] (a
      typed-array read past the end) uses [number], which adds [NaN].
    - A [Uint8Array], an [ArrayBuffer] or a [Blob] is the list of its
      bytes ([list Z], each in 0..255 for a well-formed buffer, see
      [is_bytes]); an [Int16Array] is the list of its elements.  Stores
      into typed arrays apply the conversion of the array type
      ([ToUint8], [ToUint8Clamp], [ToInt16]).
    - A thrown exception or a rejected promise is [Throw e]; the
      asynchronous functions are run to completion.
    - Typed-array views use the byte order of the platform; it is
      little-endian here, as on every platform browsers run on.
    - What the browser provides (deflate streams, image decoding, the
      canvas) is the interface [Browser]. *)

From Stdlib Require Import ZArith List Lia Bool QArith Qround.
From Stdlib Require String Ascii.
Import ListNotations.

Local Open Scope Z_scope.

(** ** Outcomes *)

(** The errors the program can end with.  The first group is thrown by
    the service itself (the comment gives the message), the second by
    the runtime. *)
Inductive error : Type :=
| InvalidWavFile                        (* "Invalid WAV file: missing RIFF header" *)
| SizeMismatch (expected got : Z)       (* "Size mismatch: expected E, got G" *)
| InvalidImageDimensions (width height : Z) (* "Invalid image dimensions: WxH" *)
| FailedCanvasContext                   (* "Failed to get canvas context" *)
| FailedImageBlob                       (* "Failed to create image blob" *)
| FailedJpegBlob                        (* "Failed to create JPEG blob" *)
| FailedLoadImage                       (* "Failed to load image" *)
| RangeError                            (* DataView read out of bounds, invalid array length *)
| IndexSizeError                        (* DOMException of ImageData / getImageData *)
| InvalidStateError                     (* DOMException of ImageData *)
| StreamError.                          (* TypeError of a DecompressionStream *)

Inductive outcome (A : Type) : Type :=
| Ok (a : A)
| Throw (e : error).
Arguments Ok {A} a.
Arguments Throw {A} e.

Definition bind {A B : Type} (c : outcome A) (k : A -> outcome B) : outcome B :=
  match c with
  | Ok a => k a
  | Throw e => Throw e
  end.

Notation "x <- c ;; k" := (bind c (fun x => k))
  (at level 61, c at next level, right associativity).
Notation "' p <- c ;; k" := (bind c (fun x => let p := x in k))
  (at level 61, p pattern, c at next level, right associativity).

(** A promise that an event handler has to settle.  [Pending] is the
    promise that stays pending for ever: the handler threw before it
    called [resolve] or [reject], and the exception reaches neither the
    promise nor the caller.  A settled promise is written as its
    outcome. *)
Inductive promise (A : Type) : Type :=
| Settled (o : outcome A)
| Pending.
Arguments Settled {A} o.
Arguments Pending {A}.
Coercion Settled : outcome >-> promise.

(** [await]: nothing after it runs while the promise is pending. *)
Definition await {A B : Type} (p : promise A) (k : A -> promise B) : promise B :=
  match p with
  | Settled (Ok a) => k a
  | Settled (Throw e) => Throw e
  | Pending => Pending
  end.

Notation "x <~ c ;; k" := (await c (fun x => k))
  (at level 61, c at next level, right associativity).
Notation "' p <~ c ;; k" := (await c (fun x => let p := x in k))
  (at level 61, p pattern, c at next level, right associativity).

(** ** Numbers and typed-array conversions *)

Inductive number : Type :=
| Int (z : Z)
| NaN.

Definition ToInt32 (v : Z) : Z := (v + 2 ^ 31) mod 2 ^ 32 - 2 ^ 31.
Definition ToUint32 (v : Z) : Z := v mod 2 ^ 32.
Definition ToInt16 (v : Z) : Z := (v + 2 ^ 15) mod 2 ^ 16 - 2 ^ 15.

(** Storing into a [Uint8Array]: modulo 256, [NaN] becomes 0. *)
Definition ToUint8 (v : number) : Z :=
  match v with
  | Int z => z mod 256
  | NaN => 0
  end.

(** Storing into a [Uint8ClampedArray]: clamped to 0..255, [NaN]
    becomes 0. *)
Definition ToUint8Clamp (v : number) : Z :=
  match v with
  | Int z => Z.max 0 (Z.min 255 z)
  | NaN => 0
  end.

(** [Math.round]: the nearest integer, ties towards +infinity. *)
Definition Math_round (q : Q) : Z := Qfloor (q + (1 # 2)).

Definition is_byte (b : Z) : Prop := 0 <= b <= 255.
Definition is_bytes (l : list Z) : Prop := Forall is_byte l.

Definition byteLength (buf : list Z) : Z := Z.of_nat (length buf).

(** ** Constants *)

Definition SAMPLE_RATE : Z := 44100.
Definition BITS_PER_SAMPLE : Z := 16.
Definition NUM_CHANNELS : Z := 1.

Definition MAGIC_FULL : Z := 0x46554C4C.
Definition MAGIC_JPEG : Z := 0x4A504547.

(** ** Integer <-> bytes *)

(** JavaScript's [<<], [>>], [|] and [&] work on the 32-bit signed
    value of their operands. *)
Definition js_shl (a n : Z) : Z := ToInt32 (Z.shiftl (ToInt32 a) n).
Definition js_sar (a n : Z) : Z := Z.shiftr (ToInt32 a) n.
Definition js_or (a b : Z) : Z := Z.lor (ToInt32 a) (ToInt32 b).
Definition js_and (a b : Z) : Z := Z.land (ToInt32 a) (ToInt32 b).
(** [x >>> 0] *)
Definition js_shr0 (a : Z) : Z := ToUint32 a.

Definition int32ToBytes (value : Z) : list Z :=
  [ js_and value 0xff;
    js_and (js_sar value 8) 0xff;
    js_and (js_sar value 16) 0xff;
    js_and (js_sar value 24) 0xff ].

(** [bytes[i]] used as an operand of [|] or [<<]: a read past the end
    is [undefined], which these operators take as 0. *)
Definition byteAt (bytes : list Z) (i : Z) : Z :=
  if i <? 0 then 0 else nth (Z.to_nat i) bytes 0.

Definition bytesToInt32 (bytes : list Z) (offset : Z) : Z :=
  js_shr0
    (js_or (js_or (js_or (byteAt bytes offset)
                         (js_shl (byteAt bytes (offset + 1)) 8))
                  (js_shl (byteAt bytes (offset + 2)) 16))
           (js_shl (byteAt bytes (offset + 3)) 24)).

Definition int16ToBytes (value : Z) : list Z :=
  [ js_and value 0xff; js_and (js_sar value 8) 0xff ].

(** ** Sample codec *)

Definition byteToSample (byte : Z) : Z := (byte - 128) * 256.

Definition sampleToByte (sample : number) : number :=
  match sample with
  | Int s =>
      let byte := Math_round (inject_Z s / 256) + 128 in
      Int (Z.max 0 (Z.min 255 byte))
  | NaN => NaN
  end.

(** ** Typed arrays *)

(** [target.set(source, offset)] where the source fits in the target. *)
Definition Uint8Array_set (target source : list Z) (offset : nat) : list Z :=
  firstn offset target ++ source ++ skipn (offset + length source) target.

(** [new ArrayBuffer(n)]: a negative length and a length above
    2^53 - 1 are a [RangeError]; memory is not bounded otherwise. *)
Definition new_ArrayBuffer (n : Z) : outcome (list Z) :=
  if (n <? 0) || (n >? 2 ^ 53 - 1) then Throw RangeError
  else Ok (repeat 0 (Z.to_nat n)).

(** [new Uint8Array(n)]: a negative length is a [RangeError].  The
    lengths the service asks for are below 2^32, or below the length of
    an array it already holds, so the upper limit is never met. *)
Definition new_Uint8Array (n : Z) : outcome (list Z) :=
  if n <? 0 then Throw RangeError
  else Ok (repeat 0 (Z.to_nat n)).

(** The bytes behind an [Int16Array] ([new Uint8Array(a.buffer)]). *)
Definition Int16Array_buffer (a : list Z) : list Z :=
  flat_map (fun s => [s mod 256; (s / 256) mod 256]) a.

(** [new Int16Array(buffer)]: a [RangeError] when the byte length is
    odd. *)
Fixpoint new_Int16Array (buffer : list Z) : outcome (list Z) :=
  match buffer with
  | [] => Ok []
  | [_] => Throw RangeError
  | lo :: hi :: rest =>
      match new_Int16Array rest with
      | Ok a => Ok (ToInt16 (lo + 256 * hi) :: a)
      | Throw e => Throw e
      end
  end.

(** [samples[i]]: [undefined] past the end, which arithmetic turns into
    [NaN]. *)
Definition sampleAt (samples : list Z) (i : nat) : number :=
  match nth_error samples i with
  | Some s => Int s
  | None => NaN
  end.

(** [arrayBuffer.slice(offset)] for a non-negative offset. *)
Definition slice (buffer : list Z) (offset : Z) : list Z :=
  skipn (Z.to_nat offset) buffer.

(** [dataView.getUint8(i)] *)
Definition getUint8 (view : list Z) (i : Z) : outcome Z :=
  if i <? 0 then Throw RangeError
  else match nth_error view (Z.to_nat i) with
       | Some b => Ok b
       | None => Throw RangeError
       end.

(** [dataView.getUint32(i, true)] *)
Definition getUint32 (view : list Z) (i : Z) : outcome Z :=
  b0 <- getUint8 view i ;;
  b1 <- getUint8 view (i + 1) ;;
  b2 <- getUint8 view (i + 2) ;;
  b3 <- getUint8 view (i + 3) ;;
  Ok (b0 + 2 ^ 8 * b1 + 2 ^ 16 * b2 + 2 ^ 24 * b3).

(** [String.fromCharCode(view.getUint8(i), ..., view.getUint8(i + 3))]:
    a string is the list of its code units. *)
Definition fourCC (view : list Z) (i : Z) : outcome (list Z) :=
  c0 <- getUint8 view i ;;
  c1 <- getUint8 view (i + 1) ;;
  c2 <- getUint8 view (i + 2) ;;
  c3 <- getUint8 view (i + 3) ;;
  Ok [c0; c1; c2; c3].

Definition str_RIFF : list Z := [0x52; 0x49; 0x46; 0x46].
Definition str_data : list Z := [0x64; 0x61; 0x74; 0x61].

Fixpoint string_eqb (a b : list Z) : bool :=
  match a, b with
  | [], [] => true
  | x :: a', y :: b' => (x =? y) && string_eqb a' b'
  | _, _ => false
  end.

(** ** WAV container: encoding *)

Definition createWavHeader (dataSize : Z) : list Z :=
  let header := repeat 0 44 in
  let byteRate := SAMPLE_RATE * NUM_CHANNELS * (BITS_PER_SAMPLE / 8) in
  let blockAlign := NUM_CHANNELS * (BITS_PER_SAMPLE / 8) in
  let header := Uint8Array_set header [0x52; 0x49; 0x46; 0x46] 0 in
  let header := Uint8Array_set header (int32ToBytes (36 + dataSize)) 4 in
  let header := Uint8Array_set header [0x57; 0x41; 0x56; 0x45] 8 in
  let header := Uint8Array_set header [0x66; 0x6d; 0x74; 0x20] 12 in
  let header := Uint8Array_set header (int32ToBytes 16) 16 in
  let header := Uint8Array_set header (int16ToBytes 1) 20 in
  let header := Uint8Array_set header (int16ToBytes NUM_CHANNELS) 22 in
  let header := Uint8Array_set header (int32ToBytes SAMPLE_RATE) 24 in
  let header := Uint8Array_set header (int32ToBytes byteRate) 28 in
  let header := Uint8Array_set header (int16ToBytes blockAlign) 32 in
  let header := Uint8Array_set header (int16ToBytes BITS_PER_SAMPLE) 34 in
  let header := Uint8Array_set header [0x64; 0x61; 0x74; 0x61] 36 in
  let header := Uint8Array_set header (int32ToBytes dataSize) 40 in
  header.

(** The two loops of [bytesToWav] fill [audioData] front to back. *)
Definition encodeSamples (headerBytes data : list Z) : list Z :=
  map (fun b => ToInt16 (byteToSample b)) headerBytes
  ++ map (fun b => ToInt16 (byteToSample b)) data.

Definition bytesToWav (data headerBytes : list Z) : list Z :=
  let totalSamples := byteLength headerBytes + byteLength data in
  let audioDataSize := totalSamples * 2 in
  let audioData := encodeSamples headerBytes data in
  let wavHeader := createWavHeader audioDataSize in
  let wavData := Int16Array_buffer audioData in
  let wavFile := repeat 0 (length wavHeader + length wavData) in
  let wavFile := Uint8Array_set wavFile wavHeader 0 in
  let wavFile := Uint8Array_set wavFile wavData (length wavHeader) in
  wavFile.

(** ** The browser *)

Module RawPixelData.
Record t : Type := { width : Z; height : Z; data : list Z }.
End RawPixelData.

(** The result of a JavaScript division of two integers: [Finite q] is
    the double nearest to [q].  Both operands stay far below 2^53 here,
    so rounding changes neither whether the quotient is 0 nor whether it
    exceeds 1. *)
Inductive real : Type :=
| Finite (q : Q)
| Infinity
| NegInfinity
| NotANumber.

Definition js_div (a b : Z) : real :=
  match b with
  | Z0 => if a >? 0 then Infinity else if a <? 0 then NegInfinity else NotANumber
  | Zpos p => Finite (a # p)
  | Zneg p => Finite (- a # p)
  end.

(** Truthiness of a number: false for 0 and [NaN]. *)
Definition truthy (r : real) : bool :=
  match r with
  | Finite q => negb (Qeq_bool q 0)
  | Infinity | NegInfinity => true
  | NotANumber => false
  end.

(** [r > 1] *)
Definition gt_one (r : real) : bool :=
  match r with
  | Finite q => negb (Qle_bool q 1)
  | Infinity => true
  | NegInfinity | NotANumber => false
  end.

(** What the service takes from the browser.
    - [deflate] and [inflate] are the two compression streams run over a
      whole buffer; [inflate] is [None] when the stream errors.
    - [loadImage] is an [Image] loaded from the bytes of a file or blob
      and drawn on a canvas of its size: its width and height and the
      pixels [getImageData] returns for it (none for an image without
      area, where [getImageData] throws), or [None] when [onerror]
      fires.
    - [getContext w h] tells whether a canvas of that size gives a 2d
      context, [toBlobPng w h] whether [toBlob] gives a PNG blob for it,
      and [toBlobJpeg] is the JPEG that [toBlob] makes of a drawn image
      at a quality, if any. *)
Class Browser : Type := {
  deflate : list Z -> list Z;
  inflate : list Z -> option (list Z);
  loadImage : list Z -> option RawPixelData.t;
  getContext : Z -> Z -> bool;
  toBlobPng : Z -> Z -> bool;
  toBlobJpeg : RawPixelData.t -> Q -> option (list Z)
}.

(** [new ImageData(data, sw, sh)] as the HTML standard defines it. *)
Module ImageData.
Record t : Type := { data : list Z; width : Z; height : Z }.
End ImageData.

Definition new_ImageData (data : list Z) (sw sh : Z) : outcome ImageData.t :=
  let length := byteLength data in
  if (length =? 0) || negb (length mod 4 =? 0) then Throw InvalidStateError
  else
    let length := length / 4 in
    if (sw =? 0) || negb (length mod sw =? 0) then Throw IndexSizeError
    else
      let height := length / sw in
      if negb (sh =? height) then Throw IndexSizeError
      else Ok {| ImageData.data := data; ImageData.width := sw; ImageData.height := sh |}.

(** A blob: its MIME type is carried by the constructor.  A WAV and a
    JPEG blob are their bytes.  [PngBlob canvas] is the blob that
    [canvas.toBlob] makes of a canvas on which [canvas] was put with
    [putImageData]: it says what the program handed to the canvas, not
    which bytes a reader of the PNG finds.  A canvas keeps its colours
    multiplied by alpha, so a pixel whose alpha is below 255 can come
    back with other colour bytes; opaque pixels come back as they
    were. *)
Inductive Blob : Type :=
| WavBlob (bytes : list Z)
| JpegBlob (bytes : list Z)
| PngBlob (canvas : ImageData.t).

Inductive QualityMode : Type := full | compressed.

Module SonificationOptions.
Record t : Type := { quality : QualityMode; jpegQuality : option Q }.
End SonificationOptions.

(** [audioUrl] and [imageUrl] are object URLs of the blobs and carry
    nothing else; they are left out of the two result records. *)
Module SonificationResult.
Record t : Type := {
  audioBlob : Blob;
  sampleRate : Z;
  duration : real;
  compressionRatio : real
}.
End SonificationResult.

Module ReconstructionResult.
Record t : Type := { imageBlob : Blob; width : Z; height : Z }.
End ReconstructionResult.

Section Service.
Context {browser : Browser}.

Definition compressData (data : list Z) : list Z := deflate data.

Definition decompressData (data : list Z) : outcome (list Z) :=
  match inflate data with
  | Some bytes => Ok bytes
  | None => Throw StreamError
  end.

Definition imageToJpegBlob (file : list Z) (quality : Q) : outcome (list Z) :=
  match loadImage file with
  | None => Throw FailedLoadImage
  | Some img =>
      if negb (getContext (RawPixelData.width img) (RawPixelData.height img))
      then Throw FailedCanvasContext
      else match toBlobJpeg img quality with
           | Some blob => Ok blob
           | None => Throw FailedJpegBlob
           end
  end.

(** [getImageData(0, 0, img.width, img.height)] is called inside
    [img.onload]; for a width or a height of 0 it throws its
    [IndexSizeError] there, and the promise is never settled. *)
Definition extractRawPixelData (file : list Z) : promise RawPixelData.t :=
  match loadImage file with
  | None => Throw FailedLoadImage
  | Some img =>
      if negb (getContext (RawPixelData.width img) (RawPixelData.height img))
      then Throw FailedCanvasContext
      else if (RawPixelData.width img =? 0) || (RawPixelData.height img =? 0)
      then Pending
      else Ok img
  end.

(** ** Sonification *)

(** The branch of [imageToAudio] on the quality mode: the bytes to
    encode, the format header and the original size. *)
Definition encodePayload (file : list Z) (options : SonificationOptions.t)
  : promise (list Z * list Z * Z) :=
  let quality := SonificationOptions.quality options in
  let jpegQuality :=
    match SonificationOptions.jpegQuality options with
    | Some q => q
    | None => (7 # 10)%Q
    end in
  match quality with
  | compressed =>
      jpegData <- imageToJpegBlob file jpegQuality ;;
      let originalSize := byteLength file in
      let headerBytes := repeat 0 8 in
      let headerBytes := Uint8Array_set headerBytes (int32ToBytes MAGIC_JPEG) 0 in
      let headerBytes := Uint8Array_set headerBytes (int32ToBytes (byteLength jpegData)) 4 in
      Ok (jpegData, headerBytes, originalSize)
  | full =>
      rawData <~ extractRawPixelData file ;;
      let compressedPixels := compressData (RawPixelData.data rawData) in
      let originalSize := byteLength (RawPixelData.data rawData) in
      let headerBytes := repeat 0 16 in
      let headerBytes := Uint8Array_set headerBytes (int32ToBytes MAGIC_FULL) 0 in
      let headerBytes := Uint8Array_set headerBytes (int32ToBytes (RawPixelData.width rawData)) 4 in
      let headerBytes := Uint8Array_set headerBytes (int32ToBytes (RawPixelData.height rawData)) 8 in
      let headerBytes := Uint8Array_set headerBytes (int32ToBytes originalSize) 12 in
      Ok (compressedPixels, headerBytes, originalSize)
  end.

Definition imageToAudio (file : list Z) (options : SonificationOptions.t)
  : promise SonificationResult.t :=
  ' (dataToEncode, headerBytes, originalSize) <~ encodePayload file options ;;
  let audioBlob := WavBlob (bytesToWav dataToEncode headerBytes) in
  let totalSamples := byteLength headerBytes + byteLength dataToEncode in
  let duration := js_div totalSamples SAMPLE_RATE in
  Ok {| SonificationResult.audioBlob := audioBlob;
        SonificationResult.sampleRate := SAMPLE_RATE;
        SonificationResult.duration := duration;
        SonificationResult.compressionRatio :=
          js_div originalSize (byteLength dataToEncode) |}.

(** ** Reconstruction *)

(** How the search for the data chunk ended: by [break] on a chunk
    tagged "data" ([Found], the offset is past its 8-byte header), or
    because the loop condition failed ([NotFound]).  The program keeps
    only the offset. *)
Inductive scan : Type :=
| Found (offset : Z)
| NotFound (offset : Z).

Definition scan_offset (s : scan) : Z :=
  match s with
  | Found offset | NotFound offset => offset
  end.

(** The reads of one round of the loop: the tag and the size of the
    chunk at [offset]. *)
Definition readChunkHeader (view : list Z) (offset : Z) : outcome (list Z * Z) :=
  chunkId <- fourCC view offset ;;
  chunkSize <- getUint32 view (offset + 4) ;;
  Ok (chunkId, chunkSize).

(** The [while] loop of [audioToImage]; [None] when the fuel runs out
    (it never does from [S (length view)], see [findDataChunk_total]). *)
Fixpoint findDataChunk (fuel : nat) (view : list Z) (offset : Z)
  : option (outcome scan) :=
  match fuel with
  | O => None
  | S fuel' =>
      if offset <? byteLength view - 8 then
        match readChunkHeader view offset with
        | Throw e => Some (Throw e)
        | Ok (chunkId, chunkSize) =>
            if string_eqb chunkId str_data then Some (Ok (Found (offset + 8)))
            else findDataChunk fuel' view (offset + 8 + chunkSize)
        end
      else Some (Ok (NotFound offset))
  end.

(** [for (let i = 0; i < n; i++) target[i] = sampleToByte(samples[base + i])]
    on a fresh typed array of length [n] whose element conversion is
    [store]. *)
Definition fillFromSamples (store : number -> Z) (samples : list Z)
    (base n : nat) : list Z :=
  map (fun i => store (sampleToByte (sampleAt samples (base + i)))) (seq 0 n).

(** The loop into a [Uint8Array] and into a [Uint8ClampedArray]. *)
Definition decodeBytes : list Z -> nat -> nat -> list Z :=
  fillFromSamples ToUint8.

Definition decodeBytesClamped : list Z -> nat -> nat -> list Z :=
  fillFromSamples ToUint8Clamp.

(** The header fields of the three formats, as the decoder reads them
    from the samples. *)
Definition jpegLengthOf (samples : list Z) : Z :=
  bytesToInt32 (decodeBytes samples 0 8) 4.

Definition fullWidth (samples : list Z) : Z :=
  bytesToInt32 (decodeBytes samples 0 16) 4.
Definition fullHeight (samples : list Z) : Z :=
  bytesToInt32 (decodeBytes samples 0 16) 8.
Definition declaredOriginalSize (samples : list Z) : Z :=
  bytesToInt32 (decodeBytes samples 0 16) 12.
Definition compressedPayload (samples : list Z) : list Z :=
  decodeBytes samples 16 (length samples - 16).

Definition legacyWidth (samples : list Z) : Z :=
  bytesToInt32 (decodeBytes samples 0 12) 0.
Definition legacyHeight (samples : list Z) : Z :=
  bytesToInt32 (decodeBytes samples 0 12) 4.
Definition legacyChannels (samples : list Z) : Z :=
  bytesToInt32 (decodeBytes samples 0 12) 8.

(** The canvas part shared by the full and the legacy path: the 2d
    context, [new ImageData], [putImageData] and [toBlob].  The result
    carries the image data that was put on the canvas. *)
Definition canvasToPng (pixelData : list Z) (width height : Z)
  : outcome ReconstructionResult.t :=
  if negb (getContext width height) then Throw FailedCanvasContext
  else
    imageData <- new_ImageData pixelData width height ;;
    if toBlobPng width height
    then Ok {| ReconstructionResult.imageBlob := PngBlob imageData;
               ReconstructionResult.width := width;
               ReconstructionResult.height := height |}
    else Throw FailedImageBlob.

Definition getImageDimensions (blob : list Z) : outcome (Z * Z) :=
  match loadImage blob with
  | Some img => Ok (RawPixelData.width img, RawPixelData.height img)
  | None => Throw FailedLoadImage
  end.

Definition handleLegacyFormat (samples : list Z) : outcome ReconstructionResult.t :=
  let legacyHeader := decodeBytes samples 0 12 in
  let width := bytesToInt32 legacyHeader 0 in
  let height := bytesToInt32 legacyHeader 4 in
  let channels := bytesToInt32 legacyHeader 8 in
  if (width <=? 0) || (width >? 32768) || (height <=? 0) || (height >? 32768)
  then Throw (InvalidImageDimensions width height)
  else
    let expectedSize := width * height * channels in
    _ <- new_ArrayBuffer expectedSize ;;
    let pixelData := decodeBytesClamped samples 12 (Z.to_nat expectedSize) in
    canvasToPng pixelData width height.

(** The magic number read from the first four samples. *)
Definition readMagic (samples : list Z) : Z :=
  bytesToInt32 (decodeBytes samples 0 4) 0.

Definition decodeJpeg (samples : list Z) : outcome ReconstructionResult.t :=
  let headerBytes := decodeBytes samples 0 8 in
  let jpegLength := bytesToInt32 headerBytes 4 in
  _ <- new_Uint8Array jpegLength ;;
  let jpegData := decodeBytes samples 8 (Z.to_nat jpegLength) in
  ' (width, height) <- getImageDimensions jpegData ;;
  Ok {| ReconstructionResult.imageBlob := JpegBlob jpegData;
        ReconstructionResult.width := width;
        ReconstructionResult.height := height |}.

Definition decodeFull (samples : list Z) : outcome ReconstructionResult.t :=
  let headerBytes := decodeBytes samples 0 16 in
  let width := bytesToInt32 headerBytes 4 in
  let height := bytesToInt32 headerBytes 8 in
  let originalSize := bytesToInt32 headerBytes 12 in
  let compressedLength := byteLength samples - 16 in
  _ <- new_Uint8Array compressedLength ;;
  let compressedData := decodeBytes samples 16 (Z.to_nat compressedLength) in
  rawPixelData <- decompressData compressedData ;;
  if negb (byteLength rawPixelData =? originalSize)
  then Throw (SizeMismatch originalSize (byteLength rawPixelData))
  else
    let pixelData := map (fun b => ToUint8Clamp (Int b)) rawPixelData in
    canvasToPng pixelData width height.

(** [audioToImage] from the point where [samples] is built. *)
Definition decodeSamples (samples : list Z) : outcome ReconstructionResult.t :=
  let magic := readMagic samples in
  if magic =? MAGIC_JPEG then decodeJpeg samples
  else if magic =? MAGIC_FULL then decodeFull samples
  else handleLegacyFormat samples.

(** [audioToImage] up to that point: the RIFF check, the search for the
    data chunk and the [Int16Array] over the rest of the file. *)
Definition extractSamples (file : list Z) : option (outcome (list Z)) :=
  match fourCC file 0 with
  | Throw e => Some (Throw e)
  | Ok riff =>
      if negb (string_eqb riff str_RIFF) then Some (Throw InvalidWavFile)
      else
        match findDataChunk (S (length file)) file 12 with
        | None => None
        | Some (Throw e) => Some (Throw e)
        | Some (Ok s) => Some (new_Int16Array (slice file (scan_offset s)))
        end
  end.

Definition audioToImage (file : list Z) : option (outcome ReconstructionResult.t) :=
  match extractSamples file with
  | None => None
  | Some r => Some (samples <- r ;; decodeSamples samples)
  end.

End Service.

(** ** The page component *)

(** [resultInfo.compressionRatio] as [handleProcess] sets it after an
    encoding: [Some r] is the text made of [r.toFixed(1)] and "x",
    [None] is [undefined]. *)
Definition resultInfo_compressionRatio (result : SonificationResult.t)
  : option real :=
  let ratio := SonificationResult.compressionRatio result in
  if truthy ratio && gt_one ratio then Some ratio else None.


(** ** Definitions used in the statements *)

(** A check of [is_bytes] that computes. *)
Definition all_bytes (l : list Z) : bool :=
  forallb (fun b => (0 <=? b) && (b <=? 255)) l.

(** The header of the full-quality format: magic, width, height and
    original size, four bytes each. *)
Definition fullHeader (width height originalSize : Z) : list Z :=
  int32ToBytes MAGIC_FULL ++ int32ToBytes width ++ int32ToBytes height
  ++ int32ToBytes originalSize.

(** The dimensions the legacy path accepts. *)
Definition validDimensions (width height : Z) : Prop :=
  0 < width <= 32768 /\ 0 < height <= 32768.

(** ** A small browser to run the service on

    A [Browser] that is simple enough to compute with.
    - [deflate] writes a zlib stream of stored blocks (RFC 1950 and
      RFC 1951, section 3.2.4): it compresses nothing, but a real
      [DecompressionStream] reads what it writes.  [inflate] reads
      such streams and checks the Adler-32 sum; it rejects everything
      else.
    - An image file is two bytes, width and height (1..255 each),
      followed by the RGBA bytes of the pixels; the JPEG re-encoding is
      played by the same format with every byte rounded down to a
      multiple of 16.
    - Every canvas gives a 2d context; [toBlob] gives a blob for
      canvases of 1 to 32767 pixels a side. *)
Module Standin.

Definition adler32 (data : list Z) : Z :=
  let '(a, b) :=
    fold_left (fun '(a, b) x =>
                 let a' := (a + x) mod 65521 in (a', (b + a') mod 65521))
              data (1, 0) in
  b * 65536 + a.

Definition be32 (v : Z) : list Z :=
  [(v / 2 ^ 24) mod 256; (v / 2 ^ 16) mod 256; (v / 2 ^ 8) mod 256; v mod 256].

Fixpoint stored_blocks (fuel : nat) (data : list Z) : list Z :=
  match fuel with
  | O => [1; 0; 0; 255; 255]
  | S fuel' =>
      let n := Z.min (byteLength data) 65535 in
      let chunk := firstn (Z.to_nat n) data in
      let rest := skipn (Z.to_nat n) data in
      let last := match rest with [] => true | _ => false end in
      [if last then 1 else 0; n mod 256; n / 256;
       (65535 - n) mod 256; (65535 - n) / 256]
      ++ chunk ++ (if last then [] else stored_blocks fuel' rest)
  end.

Definition zlib_deflate (data : list Z) : list Z :=
  [0x78; 0x01] ++ stored_blocks (length data) data ++ be32 (adler32 data).

Fixpoint read_blocks (fuel : nat) (input acc : list Z) : option (list Z * list Z) :=
  match fuel with
  | O => None
  | S fuel' =>
      match input with
      | hd :: l0 :: l1 :: n0 :: n1 :: rest =>
          let len := l0 + 256 * l1 in
          if ((hd / 2) mod 4 =? 0) && (len + (n0 + 256 * n1) =? 65535)
             && (len <=? byteLength rest)
          then
            let acc' := acc ++ firstn (Z.to_nat len) rest in
            let rest' := skipn (Z.to_nat len) rest in
            if hd mod 2 =? 1 then Some (acc', rest')
            else read_blocks fuel' rest' acc'
          else None
      | _ => None
      end
  end.

Definition zlib_inflate (input : list Z) : option (list Z) :=
  match input with
  | cmf :: flg :: rest =>
      if (cmf mod 16 =? 8) && ((cmf * 256 + flg) mod 31 =? 0)
         && ((flg / 32) mod 2 =? 0)
      then
        match read_blocks (length input) rest [] with
        | Some (out, sum) =>
            if string_eqb sum (be32 (adler32 out)) then Some out else None
        | None => None
        end
      else None
  | _ => None
  end.

Definition load (file : list Z) : option RawPixelData.t :=
  match file with
  | w :: h :: pixels =>
      if (1 <=? w) && (w <=? 255) && (1 <=? h) && (h <=? 255)
         && (byteLength pixels =? 4 * w * h)
      then Some {| RawPixelData.width := w; RawPixelData.height := h;
                   RawPixelData.data := pixels |}
      else None
  | _ => None
  end.

Definition coarse (img : RawPixelData.t) (quality : Q) : option (list Z) :=
  Some (RawPixelData.width img :: RawPixelData.height img
        :: map (fun b => b / 16 * 16) (RawPixelData.data img)).

Definition canvas_fits (w h : Z) : bool :=
  (1 <=? w) && (w <=? 32767) && (1 <=? h) && (h <=? 32767).

#[export] Instance browser : Browser := {|
  deflate := zlib_deflate;
  inflate := zlib_inflate;
  loadImage := load;
  getContext := fun _ _ => true;
  toBlobPng := canvas_fits;
  toBlobJpeg := coarse
|}.

(** A JPEG has no alpha channel.  The same browser with a JPEG
    re-encoding that keeps the three colour bytes of each pixel only,
    so that the JPEG is smaller than the file. *)
Fixpoint colours (pixels : list Z) : list Z :=
  match pixels with
  | r :: g :: b :: _ :: rest => r :: g :: b :: colours rest
  | _ => []
  end.

Definition rgb (img : RawPixelData.t) (quality : Q) : option (list Z) :=
  Some (RawPixelData.width img :: RawPixelData.height img
        :: colours (RawPixelData.data img)).

Definition browser_rgb : Browser := {|
  deflate := zlib_deflate;
  inflate := zlib_inflate;
  loadImage := load;
  getContext := fun _ _ => true;
  toBlobPng := canvas_fits;
  toBlobJpeg := rgb
|}.

(** The 2x2 image of a black, a white, a red and a green opaque
    pixel, and its file. *)
Definition pixels_2x2 : list Z :=
  [0; 0; 0; 255; 255; 255; 255; 255; 255; 0; 0; 255; 0; 255; 0; 255].

Definition file_2x2 : list Z := 2 :: 2 :: pixels_2x2.

(** A WAV file around the given samples, as the encoder lays it out. *)
Definition wav_of_samples (samples : list Z) : list Z :=
  createWavHeader (byteLength samples * 2) ++ Int16Array_buffer samples.

End Standin.

(** ** Named inputs *)

(** Full quality, no JPEG quality given. *)
Definition full_options : SonificationOptions.t :=
  {| SonificationOptions.quality := full;
     SonificationOptions.jpegQuality := None |}.

(** A RIFF file that ends after its "fmt " chunk. *)
Definition wav_without_data : list Z := firstn 36 (createWavHeader 0).

(** The container of the 2x2 image with a header that declares 15
    bytes instead of 16. *)
Definition samples_wrong_size : list Z :=
  encodeSamples (fullHeader 2 2 15) (Standin.zlib_deflate Standin.pixels_2x2).

(** A legacy stream for a 2x1 image with four channels that stops
    after the first pixel, a red one. *)
Definition samples_truncated : list Z :=
  map byteToSample [2; 0; 0; 0; 1; 0; 0; 0; 4; 0; 0; 0; 255; 0; 0; 255].

(** The container of the 2x2 image with the width in its header set
    to 0. *)
Definition samples_zero_width : list Z :=
  encodeSamples (fullHeader 0 2 16) (Standin.zlib_deflate Standin.pixels_2x2).

(** What encoding the 2x2 image at full quality returns on the small
    browser. *)
Definition result_2x2 : SonificationResult.t :=
  {| SonificationResult.audioBlob :=
       WavBlob (bytesToWav (Standin.zlib_deflate Standin.pixels_2x2)
                           (fullHeader 2 2 16));
     SonificationResult.sampleRate := 44100;
     SonificationResult.duration := Finite (43 # 44100);
     SonificationResult.compressionRatio := Finite (16 # 27) |}.

(** ** The rest of the service *)

(** [dataView.getUint16(i, true)], for reading the header back. *)
Definition getUint16 (view : list Z) (i : Z) : outcome Z :=
  b0 <- getUint8 view i ;;
  b1 <- getUint8 view (i + 1) ;;
  Ok (b0 + 2 ^ 8 * b1).

(** [validateSonifiedAudio]: the RIFF comparison, [false] when a read
    throws. *)
Definition validateSonifiedAudio (file : list Z) : bool :=
  match fourCC file 0 with
  | Ok riff => string_eqb riff str_RIFF
  | Throw _ => false
  end.

(** ** More definitions used in the statements *)

(** A RIFF chunk as the search reads it: a four-character tag, the
    length of the body in four bytes, the body.  The search adds no
    padding after a body of odd length. *)
Definition riffChunk (tag body : list Z) : list Z :=
  tag ++ int32ToBytes (byteLength body) ++ body.

Definition riffChunks (chunks : list (list Z * list Z)) : list Z :=
  flat_map (fun c => riffChunk (fst c) (snd c)) chunks.

(** A tag with which the search goes on. *)
Definition skippedChunk (c : list Z * list Z) : Prop :=
  length (fst c) = 4%nat /\ fst c <> str_data /\ byteLength (snd c) < 2 ^ 32.

(** The headers of the compressed and of the legacy format. *)
Definition jpegHeader (jpegLength : Z) : list Z :=
  int32ToBytes MAGIC_JPEG ++ int32ToBytes jpegLength.

Definition legacyHeader (width height channels : Z) : list Z :=
  int32ToBytes width ++ int32ToBytes height ++ int32ToBytes channels.

(** The JPEG quality [imageToAudio] works with: 0.7 when none is
    given. *)
Definition jpegQualityOf (options : SonificationOptions.t) : Q :=
  match SonificationOptions.jpegQuality options with
  | Some q => q
  | None => (7 # 10)%Q
  end.

(** The length of the format header by quality mode. *)
Definition formatHeaderLength (quality : QualityMode) : Z :=
  match quality with
  | full => 16
  | compressed => 8
  end.

(** What holds of every image [audioToImage] returns. *)
Definition consistentResult {browser : Browser} (r : ReconstructionResult.t) : Prop :=
  match ReconstructionResult.imageBlob r with
  | PngBlob img =>
      ImageData.width img = ReconstructionResult.width r
      /\ ImageData.height img = ReconstructionResult.height r
      /\ 0 < ReconstructionResult.width r
      /\ 0 < ReconstructionResult.height r
      /\ byteLength (ImageData.data img)
         = 4 * ReconstructionResult.width r * ReconstructionResult.height r
  | JpegBlob bytes =>
      exists img, loadImage bytes = Some img
                  /\ RawPixelData.width img = ReconstructionResult.width r
                  /\ RawPixelData.height img = ReconstructionResult.height r
  | WavBlob _ => False
  end.

(** ** More of the page component *)

(** A string literal as its code units. *)
Definition str (s : String.string) : list Z :=
  map (fun a => Z.of_N (Ascii.N_of_ascii a)) (String.list_ascii_of_string s).
Delimit Scope string_scope with string.
Import String.StringSyntax.
Arguments str s%_string.

Inductive Mode : Type := image_to_wav | wav_to_image.

(** [name.split(".")[0]]: what stands before the first dot. *)
Fixpoint beforeFirstDot (name : list Z) : list Z :=
  match name with
  | [] => []
  | c :: rest => if c =? 46 then [] else c :: beforeFirstDot rest
  end.

(** [s || fallback] for a string or [undefined] on the left: the empty
    string and [undefined] (here [[]] as well) give the fallback. *)
Definition orElse (s fallback : list Z) : list Z :=
  match s with
  | [] => fallback
  | _ => s
  end.

(** [link.download] as [handleDownload] sets it; [uploadedFile] is the
    name of the uploaded file, [None] when there is no file. *)
Definition downloadFileName (mode : Mode) (uploadedFile : option (list Z))
  : list Z :=
  let base :=
    match uploadedFile with
    | Some name => beforeFirstDot name
    | None => []
    end in
  match mode with
  | image_to_wav => orElse base (str "sonified") ++ str ".wav"
  | wav_to_image => orElse base (str "reconstructed") ++ str ".png"
  end.

(** [themes.indexOf(x)], counting from [i]. *)
Fixpoint indexOfFrom (arr : list (list Z)) (x : list Z) (i : Z) : Z :=
  match arr with
  | [] => -1
  | y :: rest => if string_eqb y x then i else indexOfFrom rest x (i + 1)
  end.

Definition themes : list (list Z) := [str "light"; str "dark"; str "system"].

(** The theme [cycleTheme] sets when the current one is [theme]. *)
Definition cycleTheme (theme : list Z) : list Z :=
  let currentIndex := indexOfFrom themes theme 0 in
  let nextIndex := Z.rem (currentIndex + 1) (Z.of_nat (length themes)) in
  nth (Z.to_nat nextIndex) themes [].

Definition getThemeLabel (theme : list Z) : list Z :=
  if string_eqb theme (str "light") then str "Light"
  else if string_eqb theme (str "dark") then str "Dark"
  else str "System".

(** ** More named inputs *)

(** A WAV file with a "LIST" chunk of three bytes between the "fmt "
    chunk and the data chunk, whose size field says 0, around the
    samples of the bytes 1, 2, 3. *)
Definition wav_with_list_chunk : list Z :=
  (str_RIFF ++ [0; 0; 0; 0] ++ str "WAVE")
  ++ riffChunks [(str "fmt ", repeat 0 16); (str "LIST", [7; 8; 9])]
  ++ str_data ++ [0; 0; 0; 0]
  ++ Int16Array_buffer (map byteToSample [1; 2; 3]).

Definition compressed_options : SonificationOptions.t :=
  {| SonificationOptions.quality := compressed;
     SonificationOptions.jpegQuality := None |}.

(** The JPEG stand-in of the 2x2 image. *)
Definition jpeg_2x2 : list Z :=
  [2; 2; 0; 0; 0; 240; 240; 240; 240; 240; 240; 0; 0; 240; 0; 240; 0; 240].

(** What encoding the 2x2 image in compressed mode returns on the
    browser whose JPEG keeps the colour bytes only. *)
Definition result_2x2_rgb : SonificationResult.t :=
  {| SonificationResult.audioBlob :=
       WavBlob (bytesToWav [2; 2; 0; 0; 0; 255; 255; 255; 255; 0; 0; 0; 255; 0]
                           (jpegHeader 14));
     SonificationResult.sampleRate := 44100;
     SonificationResult.duration := Finite (22 # 44100);
     SonificationResult.compressionRatio := Finite (18 # 14) |}.

(** * Properties *)

Ltac Zify.zify_post_hook ::= Z.to_euclidean_division_equations.

(** ** Outcomes *)

Lemma Ok_inj {A : Type} (a b : A) : Ok a = Ok b -> a = b.
Proof. intros H. now injection H. Qed.

Lemma Settled_Ok_inj {A : Type} (a b : A) :
  Settled (Ok a) = Settled (Ok b) -> a = b.
Proof. intros H. now injection H. Qed.

(** ** 32-bit operators and the integer <-> bytes conversions *)

Lemma ToInt32_small (v : Z) : - 2 ^ 31 <= v < 2 ^ 31 -> ToInt32 v = v.
Proof. unfold ToInt32. intros. lia. Qed.

Lemma ToUint32_small (v : Z) : 0 <= v < 2 ^ 32 -> ToUint32 v = v.
Proof. unfold ToUint32. intros. apply Z.mod_small. lia. Qed.

Lemma ToUint32_ToInt32 (v : Z) : ToUint32 (ToInt32 v) = ToUint32 v.
Proof.
  unfold ToUint32, ToInt32.
  change (2 ^ 31) with 2147483648. change (2 ^ 32) with 4294967296. lia.
Qed.

Lemma ToUint32_range (v : Z) : 0 <= ToUint32 v < 2 ^ 32.
Proof. unfold ToUint32. apply Z.mod_pos_bound. lia. Qed.

Lemma ToUint32_lor (a b : Z) :
  ToUint32 (Z.lor a b) = Z.lor (ToUint32 a) (ToUint32 b).
Proof.
  unfold ToUint32. rewrite <- !Z.land_ones by lia. apply Z.land_lor_distr_l.
Qed.

Lemma js_and_255 (v : Z) : js_and v 0xff = v mod 256.
Proof.
  unfold js_and. rewrite (ToInt32_small 255) by lia.
  change 255 with (Z.ones 8). rewrite Z.land_ones by lia.
  unfold ToInt32. change (2 ^ 8) with 256. lia.
Qed.

Lemma js_sar_div (v n : Z) : 0 <= n -> js_sar v n = ToInt32 v / 2 ^ n.
Proof. intros. unfold js_sar. now rewrite Z.shiftr_div_pow2. Qed.

(** Two numbers with no bit in common are or-ed by adding them. *)
Lemma lor_disjoint (a b k : Z) :
  0 <= k -> 0 <= a < 2 ^ k -> Z.lor a (b * 2 ^ k) = a + b * 2 ^ k.
Proof.
  intros Hk Ha.
  assert (Hland : Z.land a (b * 2 ^ k) = 0).
  { apply Z.bits_inj'. intros n Hn. rewrite Z.land_spec, Z.bits_0.
    destruct (Z.lt_ge_cases n k) as [Hlt | Hge].
    - rewrite Z.mul_pow2_bits_low by lia. apply andb_false_r.
    - replace (Z.testbit a n) with false; [reflexivity|].
      symmetry. destruct (Z.eq_dec a 0) as [-> | Hnz]; [apply Z.bits_0|].
      apply Z.bits_above_log2; [lia|].
      apply Z.lt_le_trans with k; [|lia]. apply Z.log2_lt_pow2; lia. }
  rewrite Z.add_nocarry_lxor by exact Hland.
  symmetry. now apply Z.lxor_lor.
Qed.

Lemma js_or_bytes (b0 b1 b2 b3 : Z) :
  is_byte b0 -> is_byte b1 -> is_byte b2 -> is_byte b3 ->
  js_shr0 (js_or (js_or (js_or b0 (js_shl b1 8)) (js_shl b2 16)) (js_shl b3 24))
  = b0 + 2 ^ 8 * b1 + 2 ^ 16 * b2 + 2 ^ 24 * b3.
Proof.
  unfold is_byte. intros H0 H1 H2 H3. unfold js_shr0, js_or, js_shl.
  rewrite !Z.shiftl_mul_pow2 by lia.
  rewrite (ToInt32_small b0), (ToInt32_small b1), (ToInt32_small b2),
    (ToInt32_small b3) by lia.
  rewrite (ToInt32_small (b1 * 2 ^ 8)), (ToInt32_small (b2 * 2 ^ 16)) by lia.
  rewrite (ToInt32_small (b1 * 2 ^ 8)), (ToInt32_small (b2 * 2 ^ 16)) by lia.
  rewrite (lor_disjoint b0 b1 8) by lia.
  rewrite (ToInt32_small (b0 + b1 * 2 ^ 8)) by lia.
  rewrite (lor_disjoint _ b2 16) by lia.
  rewrite (ToInt32_small (b0 + b1 * 2 ^ 8 + b2 * 2 ^ 16)) by lia.
  rewrite ToUint32_lor, !ToUint32_ToInt32.
  rewrite !ToUint32_small by lia.
  rewrite (lor_disjoint _ b3 24) by lia. ring.
Qed.

(** The four bytes of [int32ToBytes], least significant first. *)
Lemma int32ToBytes_bytes (v : Z) :
  int32ToBytes v =
  [v mod 256; (v / 2 ^ 8) mod 256; (v / 2 ^ 16) mod 256; (v / 2 ^ 24) mod 256].
Proof.
  unfold int32ToBytes. rewrite !js_and_255, !js_sar_div by lia.
  unfold ToInt32.
  change (2 ^ 8) with 256. change (2 ^ 16) with 65536.
  change (2 ^ 24) with 16777216.
  change (2 ^ 31) with 2147483648. change (2 ^ 32) with 4294967296.
  repeat (apply (f_equal2 cons); [lia|]). reflexivity.
Qed.

Lemma int32ToBytes_length (v : Z) : length (int32ToBytes v) = 4%nat.
Proof. reflexivity. Qed.

Lemma int32ToBytes_is_bytes (v : Z) : is_bytes (int32ToBytes v).
Proof.
  rewrite int32ToBytes_bytes. unfold is_bytes, is_byte.
  repeat constructor; lia.
Qed.

(** Reading back what [int32ToBytes] wrote gives the value modulo 2^32. *)
Lemma le32_read_back (v : Z) :
  js_shr0
    (js_or (js_or (js_or (v mod 256) (js_shl ((v / 2 ^ 8) mod 256) 8))
                  (js_shl ((v / 2 ^ 16) mod 256) 16))
           (js_shl ((v / 2 ^ 24) mod 256) 24))
  = ToUint32 v.
Proof.
  rewrite js_or_bytes by (unfold is_byte; lia).
  unfold ToUint32.
  change (2 ^ 8) with 256. change (2 ^ 16) with 65536.
  change (2 ^ 24) with 16777216. change (2 ^ 32) with 4294967296.
  lia.
Qed.

Lemma bytesToInt32_int32ToBytes (pre post : list Z) (v : Z) :
  bytesToInt32 (pre ++ int32ToBytes v ++ post) (byteLength pre) = ToUint32 v.
Proof.
  rewrite int32ToBytes_bytes. unfold bytesToInt32, byteAt, byteLength.
  replace (Z.of_nat (length pre) <? 0) with false by (symmetry; apply Z.ltb_ge; lia).
  replace (Z.of_nat (length pre) + 1 <? 0) with false by (symmetry; apply Z.ltb_ge; lia).
  replace (Z.of_nat (length pre) + 2 <? 0) with false by (symmetry; apply Z.ltb_ge; lia).
  replace (Z.of_nat (length pre) + 3 <? 0) with false by (symmetry; apply Z.ltb_ge; lia).
  replace (Z.to_nat (Z.of_nat (length pre))) with (length pre + 0)%nat by lia.
  replace (Z.to_nat (Z.of_nat (length pre) + 1)) with (length pre + 1)%nat by lia.
  replace (Z.to_nat (Z.of_nat (length pre) + 2)) with (length pre + 2)%nat by lia.
  replace (Z.to_nat (Z.of_nat (length pre) + 3)) with (length pre + 3)%nat by lia.
  rewrite !app_nth2_plus. cbn [nth app].
  apply le32_read_back.
Qed.

(** ** The sample codec *)

Lemma Math_round_256 (s : Z) : Math_round (inject_Z s / 256) = (s + 128) / 256.
Proof.
  unfold Math_round, Qfloor, Qdiv, Qinv, Qmult, Qplus, inject_Z; simpl.
  replace (s * 1 * 2 + 256) with ((s + 128) * 2) by ring.
  change 512 with (256 * 2).
  apply Z.div_mul_cancel_r; lia.
Qed.

Lemma sampleToByte_Int (s : Z) :
  sampleToByte (Int s) = Int (Z.max 0 (Z.min 255 ((s + 128) / 256 + 128))).
Proof.
  unfold sampleToByte. now rewrite Math_round_256.
Qed.

(** On an exact multiple of 256 the rounding has nothing to round. *)
Lemma sampleToByte_multiple (k : Z) :
  sampleToByte (Int (k * 256)) = Int (Z.max 0 (Z.min 255 (k + 128))).
Proof.
  rewrite sampleToByte_Int.
  replace (k * 256 + 128) with (128 + k * 256) by ring.
  rewrite Z.div_add by lia. reflexivity.
Qed.

(** C2. For every byte [b] in 0..255, decoding the sample that encodes
    [b] gives [b] back exactly. *)
Theorem sampleToByte_byteToSample (b : Z) :
  0 <= b <= 255 -> sampleToByte (Int (byteToSample b)) = Int b.
Proof.
  intros Hb. unfold byteToSample. rewrite sampleToByte_multiple.
  f_equal. lia.
Qed.

Lemma sampleToByte_byteToSample_witness :
  0 <= 200 <= 255 /\ sampleToByte (Int (byteToSample 200)) = Int 200.
Proof.
  split; [lia | apply (sampleToByte_byteToSample 200); lia].
Defined.

(** C10. Every integer sample, whether or not encoding could have
    produced it, decodes to a defined integer between 0 and 255. *)
Theorem sampleToByte_in_range (s : Z) :
  exists b, sampleToByte (Int s) = Int b /\ 0 <= b <= 255.
Proof.
  rewrite sampleToByte_Int. eexists; split; [reflexivity | lia].
Qed.

(** ** The sample codec on lists *)

Lemma is_bytes_check (l : list Z) : all_bytes l = true -> is_bytes l.
Proof.
  unfold all_bytes, is_bytes. rewrite forallb_forall, Forall_forall.
  intros H b Hin. specialize (H b Hin). unfold is_byte. lia.
Qed.

Lemma ToInt16_small (v : Z) : - 2 ^ 15 <= v < 2 ^ 15 -> ToInt16 v = v.
Proof. unfold ToInt16. intros. lia. Qed.

Lemma byteToSample_int16 (b : Z) :
  is_byte b -> - 2 ^ 15 <= byteToSample b < 2 ^ 15.
Proof. unfold is_byte, byteToSample. lia. Qed.

(** One byte through the [Int16Array] and back into a [Uint8Array]. *)
Lemma decode_encode_byte (b : Z) :
  is_byte b -> ToUint8 (sampleToByte (Int (ToInt16 (byteToSample b)))) = b.
Proof.
  intros Hb. rewrite ToInt16_small by now apply byteToSample_int16.
  unfold byteToSample. rewrite sampleToByte_multiple.
  unfold is_byte in Hb. cbn [ToUint8].
  replace (Z.max 0 (Z.min 255 (b - 128 + 128))) with b by lia.
  apply Z.mod_small. lia.
Qed.

Lemma decodeBytes_length (samples : list Z) (base n : nat) :
  length (decodeBytes samples base n) = n.
Proof. unfold decodeBytes, fillFromSamples. now rewrite length_map, length_seq. Qed.

Lemma decodeBytes_S (samples : list Z) (base n : nat) :
  decodeBytes samples base (S n) =
  ToUint8 (sampleToByte (sampleAt samples base)) :: decodeBytes samples (S base) n.
Proof.
  unfold decodeBytes, fillFromSamples. cbn [seq map]. rewrite Nat.add_0_r. f_equal.
  rewrite <- seq_shift, map_map. apply map_ext. intros i.
  now rewrite Nat.add_succ_r.
Qed.

Lemma decodeBytes_app (samples : list Z) (base n m : nat) :
  decodeBytes samples base (n + m) =
  decodeBytes samples base n ++ decodeBytes samples (base + n) m.
Proof.
  revert base. induction n as [|n IH]; intros base.
  - now rewrite Nat.add_0_r.
  - cbn [Nat.add]. rewrite !decodeBytes_S, IH. cbn [app].
    now rewrite Nat.add_succ_r.
Qed.

Lemma sampleAt_app_r (pre l : list Z) (i : nat) :
  sampleAt (pre ++ l) (length pre + i) = sampleAt l i.
Proof.
  unfold sampleAt. rewrite nth_error_app2 by lia.
  now replace (length pre + i - length pre)%nat with i by lia.
Qed.

Lemma decodeBytes_skip (pre l : list Z) (base n : nat) :
  decodeBytes (pre ++ l) (length pre + base) n = decodeBytes l base n.
Proof.
  unfold decodeBytes, fillFromSamples. apply map_ext. intros i.
  now rewrite <- Nat.add_assoc, sampleAt_app_r.
Qed.

(** Decoding as many samples as bytes were encoded gives the bytes,
    whatever follows them. *)
Lemma decodeBytes_encoded (bytes rest : list Z) :
  is_bytes bytes ->
  decodeBytes (map (fun b => ToInt16 (byteToSample b)) bytes ++ rest) 0
    (length bytes) = bytes.
Proof.
  intros Hb. revert rest. induction Hb as [|b bytes Hb _ IH]; intros rest.
  - reflexivity.
  - cbn [length map app]. rewrite decodeBytes_S.
    unfold sampleAt at 1. cbn [nth_error].
    rewrite decode_encode_byte by exact Hb. f_equal.
    change (ToInt16 (byteToSample b) :: ?l) with ([ToInt16 (byteToSample b)] ++ l).
    change 1%nat with (length [ToInt16 (byteToSample b)] + 0)%nat.
    rewrite decodeBytes_skip. apply IH.
Qed.

Lemma is_bytes_firstn (k : nat) (bytes : list Z) :
  is_bytes bytes -> is_bytes (firstn k bytes).
Proof.
  intros H. rewrite <- (firstn_skipn k bytes) in H.
  exact (proj1 (proj1 (Forall_app _ _ _) H)).
Qed.

Lemma decodeBytes_encoded_n (bytes rest : list Z) (n : nat) :
  is_bytes bytes -> length bytes = n ->
  decodeBytes (map (fun b => ToInt16 (byteToSample b)) bytes ++ rest) 0 n = bytes.
Proof. intros Hb <-. now apply decodeBytes_encoded. Qed.

(** ** The bytes of an [Int16Array] *)

Lemma new_Int16Array_buffer (a : list Z) :
  Forall (fun s => - 2 ^ 15 <= s < 2 ^ 15) a ->
  new_Int16Array (Int16Array_buffer a) = Ok a.
Proof.
  induction 1 as [|s a Hs _ IH]; [reflexivity|].
  cbn [Int16Array_buffer flat_map app new_Int16Array].
  fold (Int16Array_buffer a). rewrite IH. do 2 f_equal.
  unfold ToInt16. change (2 ^ 15) with 32768 in *. change (2 ^ 16) with 65536. lia.
Qed.

Lemma Int16Array_buffer_length (a : list Z) :
  length (Int16Array_buffer a) = (2 * length a)%nat.
Proof.
  induction a as [|s a IH]; [reflexivity|].
  cbn [Int16Array_buffer flat_map app length]. fold (Int16Array_buffer a). lia.
Qed.

Lemma Int16Array_buffer_is_bytes (a : list Z) : is_bytes (Int16Array_buffer a).
Proof.
  induction a as [|s a IH]; [constructor|].
  cbn [Int16Array_buffer flat_map app]. fold (Int16Array_buffer a).
  constructor; [unfold is_byte; lia|]. constructor; [unfold is_byte; lia|].
  exact IH.
Qed.

Lemma encodeSamples_int16 (headerBytes data : list Z) :
  Forall (fun s => - 2 ^ 15 <= s < 2 ^ 15) (encodeSamples headerBytes data).
Proof.
  unfold encodeSamples. rewrite <- map_app. apply Forall_map.
  apply Forall_forall. intros b _. unfold ToInt16.
  change (2 ^ 15) with 32768. change (2 ^ 16) with 65536. lia.
Qed.

Lemma encodeSamples_length (headerBytes data : list Z) :
  length (encodeSamples headerBytes data) = (length headerBytes + length data)%nat.
Proof. unfold encodeSamples. now rewrite length_app, !length_map. Qed.

Lemma encodeSamples_bytes (headerBytes data : list Z) :
  is_bytes headerBytes -> is_bytes data ->
  encodeSamples headerBytes data = map byteToSample (headerBytes ++ data).
Proof.
  intros Hh Hd. unfold encodeSamples. rewrite <- map_app. apply map_ext_in.
  intros b Hin. apply ToInt16_small, byteToSample_int16.
  assert (H : is_bytes (headerBytes ++ data)) by (apply Forall_app; now split).
  exact (proj1 (Forall_forall _ _) H b Hin).
Qed.

(** ** The WAV header *)

Lemma createWavHeader_layout (dataSize : Z) :
  createWavHeader dataSize =
  [0x52; 0x49; 0x46; 0x46] ++ int32ToBytes (36 + dataSize)
  ++ [0x57; 0x41; 0x56; 0x45; 0x66; 0x6d; 0x74; 0x20; 16; 0; 0; 0; 1; 0; 1; 0;
      0x44; 0xac; 0; 0; 0x88; 0x58; 1; 0; 2; 0; 16; 0; 0x64; 0x61; 0x74; 0x61]
  ++ int32ToBytes dataSize.
Proof.
  unfold createWavHeader.
  rewrite (int32ToBytes_bytes dataSize), (int32ToBytes_bytes (36 + dataSize)).
  reflexivity.
Qed.

Lemma createWavHeader_length (dataSize : Z) :
  length (createWavHeader dataSize) = 44%nat.
Proof. rewrite createWavHeader_layout. reflexivity. Qed.

Lemma set_whole (target source : list Z) :
  length target = length source -> Uint8Array_set target source 0 = source.
Proof.
  intros H. unfold Uint8Array_set. cbn [firstn app Nat.add].
  rewrite skipn_all2 by lia. apply app_nil_r.
Qed.

Lemma set_two_parts (h d : list Z) :
  Uint8Array_set (Uint8Array_set (repeat 0 (length h + length d)) h 0) d (length h)
  = h ++ d.
Proof.
  unfold Uint8Array_set. cbn [firstn app Nat.add].
  rewrite firstn_app, firstn_all, Nat.sub_diag. cbn [firstn].
  rewrite app_nil_r. f_equal.
  rewrite skipn_all2; [apply app_nil_r|].
  rewrite length_app, length_skipn, repeat_length. lia.
Qed.

Lemma bytesToWav_layout (data headerBytes : list Z) :
  bytesToWav data headerBytes =
  createWavHeader ((byteLength headerBytes + byteLength data) * 2)
  ++ Int16Array_buffer (encodeSamples headerBytes data).
Proof. unfold bytesToWav. apply set_two_parts. Qed.

(** What a reader finds in the 44 bytes the encoder writes first. *)
Lemma wav_riff (dataSize : Z) (body : list Z) :
  fourCC (createWavHeader dataSize ++ body) 0 = Ok str_RIFF.
Proof. rewrite createWavHeader_layout, !int32ToBytes_bytes. reflexivity. Qed.

Lemma wav_fmt_tag (dataSize : Z) (body : list Z) :
  fourCC (createWavHeader dataSize ++ body) 12 = Ok [0x66; 0x6d; 0x74; 0x20].
Proof. rewrite createWavHeader_layout, !int32ToBytes_bytes. reflexivity. Qed.

Lemma wav_fmt_size (dataSize : Z) (body : list Z) :
  getUint32 (createWavHeader dataSize ++ body) 16 = Ok 16.
Proof. rewrite createWavHeader_layout, !int32ToBytes_bytes. reflexivity. Qed.

Lemma wav_data_tag (dataSize : Z) (body : list Z) :
  fourCC (createWavHeader dataSize ++ body) 36 = Ok str_data.
Proof. rewrite createWavHeader_layout, !int32ToBytes_bytes. reflexivity. Qed.

Lemma wav_data_size (dataSize : Z) (body : list Z) :
  getUint32 (createWavHeader dataSize ++ body) 40 = Ok (ToUint32 dataSize).
Proof.
  rewrite createWavHeader_layout, !int32ToBytes_bytes.
  transitivity
    (Ok (dataSize mod 256 + 2 ^ 8 * ((dataSize / 2 ^ 8) mod 256)
         + 2 ^ 16 * ((dataSize / 2 ^ 16) mod 256)
         + 2 ^ 24 * ((dataSize / 2 ^ 24) mod 256))); [reflexivity|].
  f_equal. unfold ToUint32.
  change (2 ^ 8) with 256. change (2 ^ 16) with 65536.
  change (2 ^ 24) with 16777216. change (2 ^ 32) with 4294967296. lia.
Qed.

Lemma slice_app (pre body : list Z) :
  slice (pre ++ body) (byteLength pre) = body.
Proof.
  unfold slice, byteLength. rewrite Nat2Z.id, skipn_app, skipn_all, Nat.sub_diag.
  reflexivity.
Qed.

(** A file whose first chunk after the RIFF header is a 16-byte "fmt "
    chunk followed by a "data" chunk with at least one byte after its
    header: the search ends at offset 44 after two rounds. *)
Lemma findDataChunk_fmt_then_data (view : list Z) (fuel : nat) :
  44 < byteLength view ->
  fourCC view 12 = Ok [0x66; 0x6d; 0x74; 0x20] ->
  getUint32 view 16 = Ok 16 ->
  fourCC view 36 = Ok str_data ->
  findDataChunk (S (S fuel)) view 12 = Some (Ok (Found 44)).
Proof.
  intros Hlen Hfmt Hsize Hdata.
  cbn [findDataChunk].
  replace (12 <? byteLength view - 8) with true by (symmetry; apply Z.ltb_lt; lia).
  unfold readChunkHeader. rewrite Hfmt. cbn [bind]. change (12 + 4) with 16. rewrite Hsize. cbn [bind].
  change (string_eqb [102; 109; 116; 32] str_data) with false. cbv iota.
  change (12 + 8 + 16) with 36.
  replace (36 <? byteLength view - 8) with true by (symmetry; apply Z.ltb_lt; lia).
  rewrite Hdata. cbn [bind].
  destruct (getUint32 view (36 + 4)) as [sz|e] eqn:Hsz.
  - cbn [bind]. change (string_eqb str_data str_data) with true. reflexivity.
  - exfalso. unfold getUint32 in Hsz. unfold fourCC in Hdata.
    unfold getUint8 in *. cbn [Z.ltb Z.add Z.compare Pos.add Pos.succ] in *.
    destruct (nth_error view (Z.to_nat 36)) eqn:E36; [|discriminate].
    destruct (nth_error view (Z.to_nat 37)) eqn:E37; [|discriminate].
    destruct (nth_error view (Z.to_nat 38)) eqn:E38; [|discriminate].
    destruct (nth_error view (Z.to_nat 39)) eqn:E39; [|discriminate].
    assert (Hn : forall i, (i < length view)%nat -> nth_error view i <> None)
      by (intros i Hi; now apply nth_error_Some).
    unfold byteLength in Hlen.
    destruct (nth_error view (Z.to_nat 40)) eqn:E40; [|now apply Hn in E40; [|lia]].
    destruct (nth_error view (Z.to_nat 41)) eqn:E41; [|now apply Hn in E41; [|lia]].
    destruct (nth_error view (Z.to_nat 42)) eqn:E42; [|now apply Hn in E42; [|lia]].
    destruct (nth_error view (Z.to_nat 43)) eqn:E43; [|now apply Hn in E43; [|lia]].
    discriminate.
Qed.

(** The reader finds in an encoded file exactly the samples the encoder
    wrote, provided there is at least one. *)
Lemma extractSamples_bytesToWav (data headerBytes : list Z) :
  0 < byteLength headerBytes + byteLength data ->
  extractSamples (bytesToWav data headerBytes)
  = Some (Ok (encodeSamples headerBytes data)).
Proof.
  intros Hpos. rewrite bytesToWav_layout.
  set (ds := (byteLength headerBytes + byteLength data) * 2).
  set (body := Int16Array_buffer (encodeSamples headerBytes data)).
  assert (Hlen : byteLength (createWavHeader ds ++ body) = 44 + ds).
  { unfold byteLength. rewrite length_app, createWavHeader_length.
    unfold body. rewrite Int16Array_buffer_length, encodeSamples_length.
    unfold ds, byteLength. lia. }
  unfold extractSamples. rewrite wav_riff.
  change (string_eqb str_RIFF str_RIFF) with true. cbn [negb].
  assert (Hfuel : exists fuel, S (length (createWavHeader ds ++ body)) = S (S fuel)).
  { exists (pred (length (createWavHeader ds ++ body))).
    rewrite length_app, createWavHeader_length. reflexivity. }
  destruct Hfuel as [fuel ->].
  rewrite findDataChunk_fmt_then_data;
    [ | unfold ds in *; lia | apply wav_fmt_tag | apply wav_fmt_size
      | apply wav_data_tag ].
  cbn [scan_offset].
  replace 44 with (byteLength (createWavHeader ds))
    by (unfold byteLength; now rewrite createWavHeader_length).
  rewrite slice_app. unfold body.
  now rewrite new_Int16Array_buffer by apply encodeSamples_int16.
Qed.

(** C9. The container built from header bytes and payload bytes is the
    44-byte WAV header, made for a data size of twice the number of
    bytes, followed by one 16-bit sample per byte, header bytes first,
    in order: the data chunk starts at offset 36, its size field holds
    that data size as a 32-bit number (the data size itself when it is
    below 2^32), and the bytes after it are exactly those samples. *)
Theorem bytesToWav_payload_chunk (headerBytes data : list Z) :
  is_bytes headerBytes -> is_bytes data ->
  let n := byteLength headerBytes + byteLength data in
  let wav := bytesToWav data headerBytes in
  let samples := map byteToSample (headerBytes ++ data) in
  wav = createWavHeader (n * 2) ++ Int16Array_buffer samples
  /\ byteLength samples = n
  /\ byteLength wav = 44 + n * 2
  /\ fourCC wav 36 = Ok str_data
  /\ getUint32 wav 40 = Ok (ToUint32 (n * 2))
  /\ (n * 2 < 2 ^ 32 -> getUint32 wav 40 = Ok (n * 2))
  /\ new_Int16Array (slice wav 44) = Ok samples.
Proof.
  intros Hh Hd n wav samples.
  assert (Hwav : wav = createWavHeader (n * 2) ++ Int16Array_buffer samples).
  { unfold wav, samples, n. rewrite bytesToWav_layout.
    now rewrite encodeSamples_bytes. }
  assert (Hn : byteLength samples = n).
  { unfold samples, n, byteLength. rewrite length_map, length_app. lia. }
  split; [exact Hwav|]. split; [exact Hn|]. rewrite Hwav.
  split.
  { unfold byteLength in *.
    rewrite length_app, createWavHeader_length, Int16Array_buffer_length. lia. }
  split; [apply wav_data_tag|]. split; [apply wav_data_size|].
  split.
  { intros Hfit. rewrite wav_data_size, ToUint32_small; [reflexivity|].
    unfold n, byteLength in *. lia. }
  replace 44 with (byteLength (createWavHeader (n * 2)))
    by (unfold byteLength; now rewrite createWavHeader_length).
  rewrite slice_app. apply new_Int16Array_buffer.
  unfold samples. rewrite <- encodeSamples_bytes by assumption.
  apply encodeSamples_int16.
Qed.

Lemma bytesToWav_payload_chunk_witness :
  let headerBytes := [0x47; 0x45; 0x50; 0x4a; 2; 0; 0; 0] in
  let data := [0xff; 0xd8] in
  getUint32 (bytesToWav data headerBytes) 40 = Ok 20
  /\ new_Int16Array (slice (bytesToWav data headerBytes) 44)
     = Ok [-14592; -15104; -12288; -13824; -32256; -32768; -32768; -32768;
           32512; 22528].
Proof.
  intros headerBytes data.
  assert (Hh : is_bytes headerBytes)
    by (apply is_bytes_check; vm_compute; reflexivity).
  assert (Hd : is_bytes data)
    by (apply is_bytes_check; vm_compute; reflexivity).
  pose proof (bytesToWav_payload_chunk headerBytes data Hh Hd) as H.
  cbv zeta in H. destruct H as (_ & _ & _ & _ & Hsize & _ & Hsamples).
  split; [exact Hsize | exact Hsamples].
Defined.

(** ** The three decoders in terms of the header fields *)

(** The header fields are read by [bytesToInt32] from the decoded
    header bytes. *)
Lemma readMagic_eq (samples : list Z) :
  readMagic samples = bytesToInt32 (decodeBytes samples 0 4) 0.
Proof. reflexivity. Qed.

Lemma jpegLengthOf_eq (samples : list Z) :
  jpegLengthOf samples = bytesToInt32 (decodeBytes samples 0 8) 4.
Proof. reflexivity. Qed.

Lemma fullWidth_eq (samples : list Z) :
  fullWidth samples = bytesToInt32 (decodeBytes samples 0 16) 4.
Proof. reflexivity. Qed.

Lemma fullHeight_eq (samples : list Z) :
  fullHeight samples = bytesToInt32 (decodeBytes samples 0 16) 8.
Proof. reflexivity. Qed.

Lemma declaredOriginalSize_eq (samples : list Z) :
  declaredOriginalSize samples = bytesToInt32 (decodeBytes samples 0 16) 12.
Proof. reflexivity. Qed.

Lemma compressedPayload_eq (samples : list Z) :
  compressedPayload samples = decodeBytes samples 16 (length samples - 16).
Proof. reflexivity. Qed.

Lemma legacyWidth_eq (samples : list Z) :
  legacyWidth samples = bytesToInt32 (decodeBytes samples 0 12) 0.
Proof. reflexivity. Qed.

Lemma legacyHeight_eq (samples : list Z) :
  legacyHeight samples = bytesToInt32 (decodeBytes samples 0 12) 4.
Proof. reflexivity. Qed.

Lemma legacyChannels_eq (samples : list Z) :
  legacyChannels samples = bytesToInt32 (decodeBytes samples 0 12) 8.
Proof. reflexivity. Qed.

Section Decoders.
Context {browser : Browser}.

Lemma decodeJpeg_fields (samples : list Z) :
  decodeJpeg samples
  = (_ <- new_Uint8Array (jpegLengthOf samples) ;;
     let jpegData := decodeBytes samples 8 (Z.to_nat (jpegLengthOf samples)) in
     ' (width, height) <- getImageDimensions jpegData ;;
     Ok {| ReconstructionResult.imageBlob := JpegBlob jpegData;
           ReconstructionResult.width := width;
           ReconstructionResult.height := height |}).
Proof. rewrite jpegLengthOf_eq. reflexivity. Qed.

Lemma decodeFull_fields (samples : list Z) :
  decodeFull samples
  = (_ <- new_Uint8Array (byteLength samples - 16) ;;
     rawPixelData <-
       decompressData
         (decodeBytes samples 16 (Z.to_nat (byteLength samples - 16))) ;;
     if negb (byteLength rawPixelData =? declaredOriginalSize samples)
     then Throw (SizeMismatch (declaredOriginalSize samples)
                              (byteLength rawPixelData))
     else canvasToPng (map (fun b => ToUint8Clamp (Int b)) rawPixelData)
                      (fullWidth samples) (fullHeight samples)).
Proof.
  rewrite declaredOriginalSize_eq, fullWidth_eq, fullHeight_eq. reflexivity.
Qed.

Lemma handleLegacyFormat_fields (samples : list Z) :
  handleLegacyFormat samples
  = let width := legacyWidth samples in
    let height := legacyHeight samples in
    if (width <=? 0) || (width >? 32768) || (height <=? 0) || (height >? 32768)
    then Throw (InvalidImageDimensions width height)
    else
      let expectedSize := width * height * legacyChannels samples in
      _ <- new_ArrayBuffer expectedSize ;;
      canvasToPng (decodeBytesClamped samples 12 (Z.to_nat expectedSize))
                  width height.
Proof.
  rewrite legacyWidth_eq, legacyHeight_eq, legacyChannels_eq. reflexivity.
Qed.

End Decoders.

(** ** Full quality: encoding and decoding *)

Lemma ToUint8Clamp_bytes (bytes : list Z) :
  is_bytes bytes -> map (fun b => ToUint8Clamp (Int b)) bytes = bytes.
Proof.
  intros H. rewrite <- (map_id bytes) at 2. apply map_ext_in. intros b Hin.
  pose proof (proj1 (Forall_forall _ _) H b Hin) as Hb.
  unfold is_byte in Hb. cbn [ToUint8Clamp]. lia.
Qed.

Lemma fullHeader_length (w h n : Z) : length (fullHeader w h n) = 16%nat.
Proof. reflexivity. Qed.

Lemma fullHeader_is_bytes (w h n : Z) : is_bytes (fullHeader w h n).
Proof.
  unfold fullHeader, is_bytes. rewrite !Forall_app.
  repeat split; apply int32ToBytes_is_bytes.
Qed.

Lemma fullHeader_fields (w h n : Z) :
  bytesToInt32 (fullHeader w h n) 0 = MAGIC_FULL
  /\ bytesToInt32 (fullHeader w h n) 4 = ToUint32 w
  /\ bytesToInt32 (fullHeader w h n) 8 = ToUint32 h
  /\ bytesToInt32 (fullHeader w h n) 12 = ToUint32 n.
Proof.
  unfold fullHeader. split; [|split; [|split]].
  - exact (bytesToInt32_int32ToBytes [] _ MAGIC_FULL).
  - exact (bytesToInt32_int32ToBytes (int32ToBytes MAGIC_FULL) _ w).
  - rewrite (app_assoc (int32ToBytes MAGIC_FULL)).
    exact (bytesToInt32_int32ToBytes (int32ToBytes MAGIC_FULL ++ int32ToBytes w) _ h).
  - rewrite (app_assoc (int32ToBytes w)), (app_assoc (int32ToBytes MAGIC_FULL)).
    rewrite <- (app_nil_r (int32ToBytes n)).
    exact (bytesToInt32_int32ToBytes
             (int32ToBytes MAGIC_FULL ++ int32ToBytes w ++ int32ToBytes h) [] n).
Qed.

Lemma new_ImageData_ok (data : list Z) (w h : Z) :
  0 < w -> 0 < h -> byteLength data = 4 * w * h ->
  new_ImageData data w h
  = Ok {| ImageData.data := data; ImageData.width := w; ImageData.height := h |}.
Proof.
  intros Hw Hh Hlen. unfold new_ImageData. cbv zeta. rewrite Hlen.
  replace (4 * w * h) with (h * w * 4) by ring.
  rewrite Z.mod_mul, Z.div_mul, Z.mod_mul, Z.div_mul by lia.
  replace (h * w * 4 =? 0) with false by (symmetry; apply Z.eqb_neq; nia).
  replace (w =? 0) with false by (symmetry; apply Z.eqb_neq; lia).
  now rewrite !Z.eqb_refl.
Qed.

Section FullQuality.
Context {browser : Browser}.

Lemma extractRawPixelData_getContext (file : list Z) (raw : RawPixelData.t) :
  extractRawPixelData file = Ok raw ->
  getContext (RawPixelData.width raw) (RawPixelData.height raw) = true.
Proof.
  unfold extractRawPixelData. destruct (loadImage file) as [img|]; [|discriminate].
  destruct (getContext _ _) eqn:Hctx; cbn [negb]; [|discriminate].
  destruct (_ || _); [discriminate|].
  intros [= <-]. exact Hctx.
Qed.

Lemma encodePayload_full (file : list Z) (options : SonificationOptions.t)
    (raw : RawPixelData.t) :
  SonificationOptions.quality options = full ->
  extractRawPixelData file = Ok raw ->
  encodePayload file options
  = Ok (deflate (RawPixelData.data raw),
        fullHeader (RawPixelData.width raw) (RawPixelData.height raw)
                   (byteLength (RawPixelData.data raw)),
        byteLength (RawPixelData.data raw)).
Proof.
  intros Hq Hraw. unfold encodePayload. rewrite Hq, Hraw. reflexivity.
Qed.

(** Decoding the samples of a full-quality header followed by a
    payload. *)
Lemma decodeSamples_full (w h n : Z) (payload raw : list Z) :
  is_bytes payload ->
  inflate payload = Some raw ->
  decodeSamples (encodeSamples (fullHeader w h n) payload)
  = if negb (byteLength raw =? ToUint32 n)
    then Throw (SizeMismatch (ToUint32 n) (byteLength raw))
    else canvasToPng (map (fun b => ToUint8Clamp (Int b)) raw)
                     (ToUint32 w) (ToUint32 h).
Proof.
  intros Hp Hinf.
  pose proof (fullHeader_fields w h n) as (Hmagic & Hw & Hh & Hn).
  set (samples := encodeSamples (fullHeader w h n) payload).
  assert (Hhdr : forall k, (k <= 16)%nat ->
            decodeBytes samples 0 k = firstn k (fullHeader w h n)).
  { intros k Hk. unfold samples, encodeSamples.
    rewrite <- (firstn_skipn k (fullHeader w h n)) at 1.
    rewrite map_app, <- !app_assoc.
    apply decodeBytes_encoded_n; [|rewrite length_firstn, fullHeader_length; lia].
    apply is_bytes_firstn, fullHeader_is_bytes. }
  assert (Hmagic' : readMagic samples = MAGIC_FULL).
  { rewrite readMagic_eq, (Hhdr 4%nat) by lia.
    exact (bytesToInt32_int32ToBytes [] [] MAGIC_FULL). }
  assert (Hhdr16 : decodeBytes samples 0 16 = fullHeader w h n)
    by (rewrite (Hhdr 16%nat) by lia; reflexivity).
  assert (Hw' : fullWidth samples = ToUint32 w)
    by (now rewrite fullWidth_eq, Hhdr16).
  assert (Hh' : fullHeight samples = ToUint32 h)
    by (now rewrite fullHeight_eq, Hhdr16).
  assert (Hn' : declaredOriginalSize samples = ToUint32 n)
    by (now rewrite declaredOriginalSize_eq, Hhdr16).
  assert (Hlen : byteLength samples - 16 = byteLength payload).
  { unfold samples, byteLength. rewrite encodeSamples_length, fullHeader_length. lia. }
  assert (Hpayload : decodeBytes samples 16 (length payload) = payload).
  { unfold samples, encodeSamples.
    change 16%nat with (length (map (fun b => ToInt16 (byteToSample b))
                                     (fullHeader w h n)) + 0)%nat.
    rewrite decodeBytes_skip.
    rewrite <- (app_nil_r (map _ payload)). now apply decodeBytes_encoded. }
  unfold decodeSamples. rewrite Hmagic'.
  change (MAGIC_FULL =? MAGIC_JPEG) with false.
  change (MAGIC_FULL =? MAGIC_FULL) with true. cbv iota.
  rewrite decodeFull_fields, Hlen, Hw', Hh', Hn'.
  unfold new_Uint8Array.
  replace (byteLength payload <? 0) with false
    by (symmetry; apply Z.ltb_ge; unfold byteLength; lia).
  cbn [bind]. unfold byteLength at 1. rewrite Nat2Z.id, Hpayload.
  unfold decompressData. rewrite Hinf. reflexivity.
Qed.

(** C1. A raw RGBA image that the canvas hands out (positive width and
    height, four bytes per pixel, a size that fits the 32-bit header
    field) and that the browser's deflate streams carry faithfully is
    encoded at full quality into a WAV file whose decoding puts exactly
    the original bytes on a canvas of the original width and height. *)
Theorem full_quality_round_trip (file : list Z)
    (options : SonificationOptions.t) (raw : RawPixelData.t) :
  let w := RawPixelData.width raw in
  let h := RawPixelData.height raw in
  let pixels := RawPixelData.data raw in
  SonificationOptions.quality options = full ->
  extractRawPixelData file = Ok raw ->
  is_bytes pixels -> 0 < w -> 0 < h ->
  byteLength pixels = 4 * w * h -> byteLength pixels < 2 ^ 32 ->
  is_bytes (deflate pixels) -> inflate (deflate pixels) = Some pixels ->
  toBlobPng w h = true ->
  exists result wav,
    imageToAudio file options = Ok result
    /\ SonificationResult.audioBlob result = WavBlob wav
    /\ audioToImage wav
       = Some (Ok {| ReconstructionResult.imageBlob :=
                       PngBlob {| ImageData.data := pixels;
                                  ImageData.width := w;
                                  ImageData.height := h |};
                     ReconstructionResult.width := w;
                     ReconstructionResult.height := h |}).
Proof.
  intros w h pixels Hq Hraw Hbytes Hw Hh Hlen Hfit Hdefl Hinf Hpng.
  unfold imageToAudio. rewrite (encodePayload_full file options raw Hq Hraw).
  fold w h pixels. cbn [bind].
  eexists. eexists. split; [reflexivity|]. split; [reflexivity|].
  unfold audioToImage. rewrite extractSamples_bytesToWav
    by (unfold byteLength; rewrite fullHeader_length; lia).
  cbn [bind]. f_equal.
  rewrite (decodeSamples_full _ _ _ _ pixels Hdefl Hinf).
  assert (Hw32 : ToUint32 w = w) by (apply ToUint32_small; nia).
  assert (Hh32 : ToUint32 h = h) by (apply ToUint32_small; nia).
  assert (Hn32 : ToUint32 (byteLength pixels) = byteLength pixels)
    by (apply ToUint32_small; unfold byteLength in *; lia).
  rewrite Hw32, Hh32, Hn32, Z.eqb_refl. cbn [negb].
  rewrite ToUint8Clamp_bytes by exact Hbytes.
  unfold canvasToPng.
  rewrite (extractRawPixelData_getContext file raw Hraw : getContext w h = true).
  cbn [negb]. rewrite new_ImageData_ok by assumption.
  cbn [bind]. now rewrite Hpng.
Qed.

End FullQuality.

Lemma full_quality_round_trip_witness :
  exists result wav,
    imageToAudio (browser := Standin.browser) Standin.file_2x2 full_options
    = Ok result
    /\ SonificationResult.audioBlob result = WavBlob wav
    /\ audioToImage (browser := Standin.browser) wav
       = Some (Ok {| ReconstructionResult.imageBlob :=
                       PngBlob {| ImageData.data := Standin.pixels_2x2;
                                  ImageData.width := 2;
                                  ImageData.height := 2 |};
                     ReconstructionResult.width := 2;
                     ReconstructionResult.height := 2 |}).
Proof.
  apply (full_quality_round_trip (browser := Standin.browser)
           Standin.file_2x2 full_options
           {| RawPixelData.width := 2; RawPixelData.height := 2;
              RawPixelData.data := Standin.pixels_2x2 |}).
  - reflexivity.
  - reflexivity.
  - apply is_bytes_check. vm_compute. reflexivity.
  - cbn. lia.
  - cbn. lia.
  - reflexivity.
  - cbn. lia.
  - apply is_bytes_check. vm_compute. reflexivity.
  - vm_compute. reflexivity.
  - reflexivity.
Defined.

(** ** Rejecting files that are not RIFF *)

Lemma string_eqb_eq (a b : list Z) : string_eqb a b = true <-> a = b.
Proof.
  revert b. induction a as [|x a IH]; intros [|y b]; cbn [string_eqb];
    try (split; [discriminate | discriminate]); [tauto|].
  rewrite andb_true_iff, Z.eqb_eq, IH. split.
  - now intros [-> ->].
  - now intros [= -> ->].
Qed.

Lemma fourCC_firstn (file : list Z) :
  (4 <= length file)%nat -> fourCC file 0 = Ok (firstn 4 file).
Proof.
  destruct file as [|b0 [|b1 [|b2 [|b3 rest]]]]; cbn [length]; try lia.
  reflexivity.
Qed.

Lemma fourCC_short (file : list Z) :
  (length file < 4)%nat -> fourCC file 0 = Throw RangeError.
Proof.
  destruct file as [|b0 [|b1 [|b2 [|b3 rest]]]]; cbn [length]; try lia;
    reflexivity.
Qed.

Section Rejection.
Context {browser : Browser}.



End Rejection.



(** ** Reading past the end of the samples *)

Lemma skipn_cons_nth_error (l : list Z) (base : nat) (s : Z) (rest : list Z) :
  skipn base l = s :: rest ->
  nth_error l base = Some s /\ skipn (S base) l = rest.
Proof.
  revert l. induction base as [|base IH]; intros l H.
  - cbn [skipn] in H. subst l. now split.
  - destruct l as [|x l]; [discriminate|].
    cbn [skipn] in H. cbn [nth_error]. apply IH in H. exact H.
Qed.

Lemma skipn_nil_nth_error (l : list Z) (base : nat) :
  skipn base l = [] -> nth_error l base = None /\ skipn (S base) l = [].
Proof.
  intros H. assert (Hlen : (length l <= base)%nat).
  { rewrite <- (firstn_skipn base l), H, app_nil_r. apply firstn_le_length. }
  split; [now apply nth_error_None | apply skipn_all2; lia].
Qed.

(** The loop decodes the samples that are there and leaves the value of
    an undefined sample, [store NaN], in the rest of the array. *)
Lemma fillFromSamples_split (store : number -> Z) (samples : list Z)
    (base n : nat) :
  fillFromSamples store samples base n
  = map (fun s => store (sampleToByte (Int s))) (firstn n (skipn base samples))
    ++ repeat (store NaN) (n - length (skipn base samples)).
Proof.
  revert base. induction n as [|n IH]; intros base; [reflexivity|].
  assert (Hstep : fillFromSamples store samples base (S n)
                  = store (sampleToByte (sampleAt samples base))
                    :: fillFromSamples store samples (S base) n).
  { unfold fillFromSamples. cbn [seq map]. rewrite Nat.add_0_r. f_equal.
    rewrite <- seq_shift, map_map. apply map_ext. intros i.
    now rewrite Nat.add_succ_r. }
  rewrite Hstep, IH. unfold sampleAt.
  destruct (skipn base samples) as [|s rest] eqn:E.
  - apply skipn_nil_nth_error in E. destruct E as [-> ->].
    cbn [firstn map length app sampleToByte]. rewrite firstn_nil.
    now rewrite !Nat.sub_0_r.
  - apply skipn_cons_nth_error in E. destruct E as [-> ->].
    reflexivity.
Qed.


Lemma bytesToInt32_at (pre post : list Z) (b0 b1 b2 b3 : Z) :
  bytesToInt32 (pre ++ b0 :: b1 :: b2 :: b3 :: post) (byteLength pre)
  = js_shr0 (js_or (js_or (js_or b0 (js_shl b1 8)) (js_shl b2 16)) (js_shl b3 24)).
Proof.
  unfold bytesToInt32, byteAt, byteLength.
  replace (Z.of_nat (length pre) <? 0) with false by (symmetry; apply Z.ltb_ge; lia).
  replace (Z.of_nat (length pre) + 1 <? 0) with false by (symmetry; apply Z.ltb_ge; lia).
  replace (Z.of_nat (length pre) + 2 <? 0) with false by (symmetry; apply Z.ltb_ge; lia).
  replace (Z.of_nat (length pre) + 3 <? 0) with false by (symmetry; apply Z.ltb_ge; lia).
  replace (Z.to_nat (Z.of_nat (length pre))) with (length pre + 0)%nat by lia.
  replace (Z.to_nat (Z.of_nat (length pre) + 1)) with (length pre + 1)%nat by lia.
  replace (Z.to_nat (Z.of_nat (length pre) + 2)) with (length pre + 2)%nat by lia.
  replace (Z.to_nat (Z.of_nat (length pre) + 3)) with (length pre + 3)%nat by lia.
  rewrite !app_nth2_plus. reflexivity.
Qed.


(** ** The search for the data chunk *)

Lemma getUint8_is_byte (view : list Z) (i b : Z) :
  is_bytes view -> getUint8 view i = Ok b -> is_byte b.
Proof.
  intros Hv. unfold getUint8. destruct (i <? 0); [discriminate|].
  destruct (nth_error view (Z.to_nat i)) as [x|] eqn:E; [|discriminate].
  intros [= <-]. apply nth_error_In in E.
  exact (proj1 (Forall_forall _ _) Hv x E).
Qed.

Lemma getUint32_nonneg (view : list Z) (i v : Z) :
  is_bytes view -> getUint32 view i = Ok v -> 0 <= v.
Proof.
  intros Hv. unfold getUint32.
  destruct (getUint8 view i) as [b0|] eqn:E0; [|discriminate].
  destruct (getUint8 view (i + 1)) as [b1|] eqn:E1; [|discriminate].
  destruct (getUint8 view (i + 2)) as [b2|] eqn:E2; [|discriminate].
  destruct (getUint8 view (i + 3)) as [b3|] eqn:E3; [|discriminate].
  cbn [bind]. intros Heq.
  assert (Hsum : v = b0 + 2 ^ 8 * b1 + 2 ^ 16 * b2 + 2 ^ 24 * b3) by congruence.
  clear Heq.
  apply (getUint8_is_byte _ _ _ Hv) in E0.
  apply (getUint8_is_byte _ _ _ Hv) in E1.
  apply (getUint8_is_byte _ _ _ Hv) in E2.
  apply (getUint8_is_byte _ _ _ Hv) in E3.
  unfold is_byte in *. lia.
Qed.

Lemma getUint8_in_bounds (view : list Z) (i : Z) :
  0 <= i < byteLength view -> exists b, getUint8 view i = Ok b.
Proof.
  intros Hi. unfold getUint8, byteLength in *.
  replace (i <? 0) with false by (symmetry; apply Z.ltb_ge; lia).
  destruct (nth_error view (Z.to_nat i)) as [b|] eqn:E; [now exists b|].
  apply nth_error_None in E. lia.
Qed.

(** Under the loop condition the eight bytes of a chunk header are
    inside the buffer: the reads of the loop never throw. *)
Lemma readChunkHeader_in_bounds (view : list Z) (offset : Z) :
  0 <= offset < byteLength view - 8 ->
  exists chunkId chunkSize, readChunkHeader view offset = Ok (chunkId, chunkSize).
Proof.
  intros H. unfold readChunkHeader, fourCC, getUint32.
  destruct (getUint8_in_bounds view offset) as [c0 ->]; [lia|].
  destruct (getUint8_in_bounds view (offset + 1)) as [c1 ->]; [lia|].
  destruct (getUint8_in_bounds view (offset + 2)) as [c2 ->]; [lia|].
  destruct (getUint8_in_bounds view (offset + 3)) as [c3 ->]; [lia|].
  destruct (getUint8_in_bounds view (offset + 4)) as [b0 ->]; [lia|].
  destruct (getUint8_in_bounds view (offset + 4 + 1)) as [b1 ->]; [lia|].
  destruct (getUint8_in_bounds view (offset + 4 + 2)) as [b2 ->]; [lia|].
  destruct (getUint8_in_bounds view (offset + 4 + 3)) as [b3 ->]; [lia|].
  cbn [bind]. eauto.
Qed.

(** The loop ends: every round moves the offset forward by at least
    eight bytes, so the fuel given by [extractSamples] is never used
    up, and it ends without an exception. *)
Lemma findDataChunk_total (view : list Z) (fuel : nat) (offset : Z) :
  is_bytes view -> 0 <= offset ->
  (0 < fuel)%nat -> byteLength view - offset < Z.of_nat fuel ->
  exists s, findDataChunk fuel view offset = Some (Ok s).
Proof.
  intros Hv. revert offset.
  induction fuel as [|fuel IH]; intros offset H0 Hpos Hfuel.
  - lia.
  - cbn [findDataChunk].
    destruct (offset <? byteLength view - 8) eqn:Hguard; [|eauto].
    apply Z.ltb_lt in Hguard.
    destruct (readChunkHeader_in_bounds view offset) as (chunkId & chunkSize & Hread);
      [lia|].
    rewrite Hread.
    destruct (string_eqb chunkId str_data); [eauto|].
    assert (0 <= chunkSize).
    { unfold readChunkHeader, fourCC in Hread.
      destruct (getUint8 view offset); [|discriminate].
      destruct (getUint8 view (offset + 1)); [|discriminate].
      destruct (getUint8 view (offset + 2)); [|discriminate].
      destruct (getUint8 view (offset + 3)); [|discriminate].
      cbn [bind] in Hread.
      destruct (getUint32 view (offset + 4)) as [v|] eqn:E; [|discriminate].
      cbn [bind] in Hread. injection Hread as _ <-.
      now apply (getUint32_nonneg view (offset + 4)). }
    apply IH; lia.
Qed.



Lemma new_Int16Array_throws (buffer : list Z) (e : error) :
  new_Int16Array buffer = Throw e -> e = RangeError.
Proof.
  induction buffer as [buffer IH] using (induction_ltof1 _ (@length Z)).
  unfold ltof in IH.
  destruct buffer as [|lo [|hi rest]]; cbn [new_Int16Array].
  - discriminate.
  - now intros [= <-].
  - destruct (new_Int16Array rest) as [a'|e'] eqn:E; [discriminate|].
    intros [= <-]. apply (IH rest); cbn [length]; auto.
Qed.

(** ** Files without a data chunk *)

Section NoDataChunk.
Context {browser : Browser}.

(** [audioToImage] always comes to an end on a buffer of bytes. *)
Lemma audioToImage_total (file : list Z) :
  is_bytes file -> exists r, audioToImage file = Some r.
Proof.
  intros Hf. unfold audioToImage, extractSamples.
  destruct (fourCC file 0) as [riff|e]; [|eauto].
  destruct (negb (string_eqb riff str_RIFF)); [eauto|].
  destruct (findDataChunk_total file (S (length file)) 12 Hf) as [s ->];
    [lia | lia | unfold byteLength; lia | eauto].
Qed.



End NoDataChunk.



(** ** Size mismatch *)

Section SizeMismatch.
Context {browser : Browser}.

(** C6. A full-quality container whose payload inflates to a number of
    bytes other than the original size its header declares is rejected
    with the size-mismatch error; no image is returned. *)
Theorem audioToImage_size_mismatch (file samples raw : list Z) :
  extractSamples file = Some (Ok samples) ->
  readMagic samples = MAGIC_FULL ->
  (16 <= length samples)%nat ->
  inflate (compressedPayload samples) = Some raw ->
  byteLength raw <> declaredOriginalSize samples ->
  audioToImage file
  = Some (Throw (SizeMismatch (declaredOriginalSize samples) (byteLength raw))).
Proof.
  intros Hsamples Hmagic Hlen Hinf Hsize.
  unfold audioToImage. rewrite Hsamples. cbn [bind]. f_equal.
  unfold decodeSamples. rewrite Hmagic.
  change (MAGIC_FULL =? MAGIC_JPEG) with false.
  change (MAGIC_FULL =? MAGIC_FULL) with true. cbv iota.
  rewrite decodeFull_fields. unfold new_Uint8Array.
  replace (byteLength samples - 16 <? 0) with false
    by (symmetry; apply Z.ltb_ge; unfold byteLength; lia).
  cbn [bind].
  replace (Z.to_nat (byteLength samples - 16)) with (length samples - 16)%nat
    by (unfold byteLength; lia).
  rewrite compressedPayload_eq in Hinf. unfold decompressData. rewrite Hinf.
  cbn [bind].
  replace (byteLength raw =? declaredOriginalSize samples) with false
    by (symmetry; now apply Z.eqb_neq).
  reflexivity.
Qed.

End SizeMismatch.

Lemma audioToImage_size_mismatch_witness :
  audioToImage (browser := Standin.browser)
    (Standin.wav_of_samples samples_wrong_size)
  = Some (Throw (SizeMismatch 15 16)).
Proof.
  apply (audioToImage_size_mismatch (browser := Standin.browser)
           (Standin.wav_of_samples samples_wrong_size) samples_wrong_size
           Standin.pixels_2x2).
  - vm_compute. reflexivity.
  - vm_compute. reflexivity.
  - vm_compute. lia.
  - vm_compute. reflexivity.
  - vm_compute. discriminate.
Defined.

(** ** Dimension checks *)

Section Dimensions.
Context {browser : Browser}.

(** The legacy path checks the dimensions its header declares. *)
Lemma handleLegacyFormat_dimensions (samples : list Z) :
  ~ validDimensions (legacyWidth samples) (legacyHeight samples) ->
  handleLegacyFormat samples
  = Throw (InvalidImageDimensions (legacyWidth samples) (legacyHeight samples)).
Proof.
  intros H. rewrite handleLegacyFormat_fields. cbv zeta.
  destruct ((legacyWidth samples <=? 0) || (legacyWidth samples >? 32768)
            || (legacyHeight samples <=? 0) || (legacyHeight samples >? 32768))
    eqn:E; [reflexivity|].
  exfalso. apply H. unfold validDimensions.
  rewrite !orb_false_iff in E. destruct E as [[[E1 E2] E3] E4].
  lia.
Qed.

Lemma canvasToPng_no_dimension_error (pixelData : list Z) (width height w h : Z) :
  canvasToPng pixelData width height <> Throw (InvalidImageDimensions w h).
Proof.
  unfold canvasToPng, new_ImageData.
  destruct (negb (getContext width height)); [discriminate|].
  cbv zeta.
  repeat match goal with
         | |- context [if ?b then _ else _] => destruct b; cbn [bind]
         end; discriminate.
Qed.

(** The full-quality path has no such check: whatever its header
    declares, it never ends with the invalid-dimensions error. *)
Lemma decodeFull_no_dimension_error (samples : list Z) (w h : Z) :
  decodeFull samples <> Throw (InvalidImageDimensions w h).
Proof.
  rewrite decodeFull_fields. unfold new_Uint8Array, decompressData.
  destruct (byteLength samples - 16 <? 0); cbn [bind]; [discriminate|].
  destruct (inflate _) as [raw|]; cbn [bind]; [|discriminate].
  destruct (negb _); [discriminate|].
  apply canvasToPng_no_dimension_error.
Qed.

(** Nor does it refuse a width above 32768: with pixel data of the
    matching size it goes on to the canvas, and returns the image if the
    canvas gives a blob. *)
Lemma decodeSamples_full_oversize (h : Z) (payload raw : list Z) :
  0 < h -> is_bytes payload -> inflate payload = Some raw ->
  is_bytes raw -> byteLength raw = 4 * 32769 * h -> byteLength raw < 2 ^ 32 ->
  getContext 32769 h = true -> toBlobPng 32769 h = true ->
  decodeSamples (encodeSamples (fullHeader 32769 h (byteLength raw)) payload)
  = Ok {| ReconstructionResult.imageBlob :=
            PngBlob {| ImageData.data := raw;
                       ImageData.width := 32769;
                       ImageData.height := h |};
          ReconstructionResult.width := 32769;
          ReconstructionResult.height := h |}.
Proof.
  intros Hh Hp Hinf Hraw Hlen Hfit Hctx Hpng.
  rewrite (decodeSamples_full _ _ _ _ raw Hp Hinf).
  rewrite (ToUint32_small 32769) by lia.
  rewrite (ToUint32_small h) by lia.
  rewrite (ToUint32_small (byteLength raw)) by (unfold byteLength in *; lia).
  rewrite Z.eqb_refl. cbn [negb].
  rewrite ToUint8Clamp_bytes by exact Hraw.
  unfold canvasToPng. rewrite Hctx. cbn [negb].
  rewrite new_ImageData_ok by (assumption || lia).
  cbn [bind]. now rewrite Hpng.
Qed.

(** No legacy stream is rejected for being shorter than its header
    declares: with valid dimensions and four channels, and a canvas
    that works, the image data put on the canvas is made of the samples
    that are there, decoded, followed by a 0 for each missing sample,
    and the PNG of that canvas is returned. *)
Lemma decodeSamples_truncated_legacy (samples : list Z) :
  let w := legacyWidth samples in
  let h := legacyHeight samples in
  let present := skipn 12 samples in
  readMagic samples <> MAGIC_JPEG -> readMagic samples <> MAGIC_FULL ->
  validDimensions w h -> legacyChannels samples = 4 ->
  byteLength samples < 12 + w * h * 4 ->
  getContext w h = true -> toBlobPng w h = true ->
  decodeSamples samples
  = Ok {| ReconstructionResult.imageBlob :=
            PngBlob
              {| ImageData.data :=
                   map (fun s => ToUint8Clamp (sampleToByte (Int s))) present
                   ++ repeat 0 (Z.to_nat (w * h * 4) - length present);
                 ImageData.width := w;
                 ImageData.height := h |};
          ReconstructionResult.width := w;
          ReconstructionResult.height := h |}.
Proof.
  intros w h present Hj Hf [Hw Hh] Hc Htrunc Hctx Hpng.
  unfold decodeSamples.
  replace (readMagic samples =? MAGIC_JPEG) with false
    by (symmetry; now apply Z.eqb_neq).
  replace (readMagic samples =? MAGIC_FULL) with false
    by (symmetry; now apply Z.eqb_neq).
  rewrite handleLegacyFormat_fields. fold w h. cbv zeta. rewrite Hc.
  replace ((w <=? 0) || (w >? 32768) || (h <=? 0) || (h >? 32768)) with false
    by (symmetry; rewrite !orb_false_iff; repeat split; lia).
  unfold new_ArrayBuffer.
  replace ((w * h * 4 <? 0) || (w * h * 4 >? 2 ^ 53 - 1)) with false
    by (symmetry; rewrite orb_false_iff; split; nia).
  cbn [bind].
  assert (Hpresent : (length present <= Z.to_nat (w * h * 4))%nat).
  { unfold present. rewrite length_skipn. unfold byteLength in Htrunc. lia. }
  unfold decodeBytesClamped. rewrite fillFromSamples_split. fold present.
  rewrite firstn_all2 by exact Hpresent. cbn [ToUint8Clamp].
  unfold canvasToPng. rewrite Hctx. cbn [negb].
  rewrite new_ImageData_ok; [cbn [bind]; now rewrite Hpng | lia | lia |].
  unfold byteLength. rewrite length_app, length_map, repeat_length. nia.
Qed.

End Dimensions.

Lemma decodeSamples_truncated_legacy_witness :
  decodeSamples (browser := Standin.browser) samples_truncated
  = Ok {| ReconstructionResult.imageBlob :=
            PngBlob {| ImageData.data := [255; 0; 0; 255; 0; 0; 0; 0];
                       ImageData.width := 2;
                       ImageData.height := 1 |};
          ReconstructionResult.width := 2;
          ReconstructionResult.height := 1 |}.
Proof.
  apply (decodeSamples_truncated_legacy (browser := Standin.browser)
           samples_truncated).
  - vm_compute. discriminate.
  - vm_compute. discriminate.
  - vm_compute. repeat split; discriminate.
  - vm_compute. reflexivity.
  - vm_compute. reflexivity.
  - reflexivity.
  - reflexivity.
Defined.

(** C4. The sample stream of this legacy file ends after four of the
    eight pixel bytes its header declares.  Decoding it does not fail:
    it returns the PNG of a 2x1 canvas whose first pixel is the red one
    of the file and whose second pixel, transparent black, was never in
    the file.  The legacy path computes the expected size and compares
    it with nothing, where the full-quality path compares the size its
    header declares with what it got. *)
Lemma truncated_stream_decoded :
  byteLength samples_truncated
  < 12 + legacyWidth samples_truncated * legacyHeight samples_truncated
         * legacyChannels samples_truncated
  /\ audioToImage (browser := Standin.browser)
       (Standin.wav_of_samples samples_truncated)
     = Some (Ok {| ReconstructionResult.imageBlob :=
                     PngBlob {| ImageData.data := [255; 0; 0; 255; 0; 0; 0; 0];
                                ImageData.width := 2;
                                ImageData.height := 1 |};
                   ReconstructionResult.width := 2;
                   ReconstructionResult.height := 1 |}).
Proof. split; vm_compute; reflexivity. Qed.

(** C3. On the container of the 2x2 image with the width field of its
    full-quality header set to 0, decoding does not end with the
    invalid-dimensions error: the full-quality path hands the zero width
    to [new ImageData], whose exception is what the caller gets. *)
Lemma full_quality_zero_width :
  readMagic samples_zero_width = MAGIC_FULL
  /\ fullWidth samples_zero_width = 0
  /\ audioToImage (browser := Standin.browser)
       (Standin.wav_of_samples samples_zero_width)
     = Some (Throw IndexSizeError).
Proof. split; [|split]; vm_compute; reflexivity. Qed.

(** ** The compression ratio *)

Lemma gt_one_truthy (r : real) : gt_one r = true -> truthy r = true.
Proof.
  destruct r as [q| | |]; cbn [gt_one truthy]; try easy.
  intros H. apply negb_true_iff in H. apply negb_true_iff.
  destruct (Qeq_bool q 0) eqn:E; [|reflexivity].
  apply Qeq_bool_iff in E.
  assert (Hle : Qle_bool q 1 = true) by (apply Qle_bool_iff; rewrite E; easy).
  congruence.
Qed.

(** For sizes, [a / b > 1] says that [a] is the larger one. *)
Lemma gt_one_js_div (a b : Z) :
  0 <= a -> 0 <= b ->
  gt_one (js_div a b) = true <-> b < a.
Proof.
  intros Ha Hb. unfold js_div. destruct b as [|p|p]; [| |lia].
  - destruct (a >? 0) eqn:E; cbn [gt_one].
    + split; [lia|reflexivity].
    + destruct (a <? 0); cbn [gt_one]; split; try discriminate; lia.
  - cbn [gt_one]. rewrite negb_true_iff.
    destruct (Qle_bool (a # p) 1) eqn:E.
    + apply Qle_bool_iff in E. unfold Qle in E. cbn in E. split; [discriminate|lia].
    + split; [intros _|reflexivity].
      destruct (Z_lt_le_dec (Z.pos p) a) as [|Hle]; [assumption|].
      assert (Qle_bool (a # p) 1 = true)
        by (apply Qle_bool_iff; unfold Qle; cbn; lia).
      congruence.
Qed.

Section Ratio.
Context {browser : Browser}.

(** C8. The compression ratio an encoding reports is the original size
    divided by the number of payload bytes, where the original size is
    the number of raw pixel bytes at full quality and the size of the
    input file in compressed mode; the page shows it exactly when it is
    greater than 1, that is when the payload has fewer bytes than the
    original, and leaves it out otherwise. *)
Theorem compressionRatio_reported (file : list Z)
    (options : SonificationOptions.t) (result : SonificationResult.t) :
  imageToAudio file options = Ok result ->
  exists (payload headerBytes : list Z) (originalSize : Z),
    encodePayload file options = Ok (payload, headerBytes, originalSize)
    /\ match SonificationOptions.quality options with
       | full =>
           exists raw, extractRawPixelData file = Ok raw
                       /\ originalSize = byteLength (RawPixelData.data raw)
                       /\ payload = compressData (RawPixelData.data raw)
       | compressed => originalSize = byteLength file
       end
    /\ SonificationResult.compressionRatio result
       = js_div originalSize (byteLength payload)
    /\ resultInfo_compressionRatio result
       = if byteLength payload <? originalSize
         then Some (js_div originalSize (byteLength payload))
         else None.
Proof.
  unfold imageToAudio.
  destruct (encodePayload file options)
    as [[[[payload headerBytes] originalSize]|e]|] eqn:E; cbn [await];
    try discriminate.
  intros H. apply Settled_Ok_inj in H. subst result.
  exists payload, headerBytes, originalSize.
  split; [reflexivity|].
  assert (Hsize :
    match SonificationOptions.quality options with
    | full =>
        exists raw, extractRawPixelData file = Ok raw
                    /\ originalSize = byteLength (RawPixelData.data raw)
                    /\ payload = compressData (RawPixelData.data raw)
    | compressed => originalSize = byteLength file
    end).
  { unfold encodePayload in E.
    destruct (SonificationOptions.quality options).
    - destruct (extractRawPixelData file) as [[raw|]|]; cbn [await] in E;
        try discriminate.
      exists raw. split; [reflexivity|].
      apply Settled_Ok_inj in E. now injection E as <- _ <-.
    - destruct (imageToJpegBlob file _) as [jpeg|]; cbn [bind] in E;
        [|discriminate].
      apply Settled_Ok_inj in E. now injection E as _ _ <-. }
  split; [exact Hsize|]. split; [reflexivity|].
  assert (Hpos : 0 <= originalSize).
  { destruct (SonificationOptions.quality options).
    - destruct Hsize as (raw & _ & -> & _). unfold byteLength. lia.
    - subst originalSize. unfold byteLength. lia. }
  assert (Hpay : 0 <= byteLength payload) by (unfold byteLength; lia).
  unfold resultInfo_compressionRatio. cbn [SonificationResult.compressionRatio].
  pose proof (gt_one_js_div originalSize (byteLength payload) Hpos Hpay) as G.
  destruct (byteLength payload <? originalSize) eqn:L.
  - apply Z.ltb_lt in L. apply G in L. now rewrite (gt_one_truthy _ L), L.
  - apply Z.ltb_ge in L. clear G.
    destruct (gt_one (js_div originalSize (byteLength payload))) eqn:G1.
    + apply (gt_one_js_div _ _ Hpos Hpay) in G1. lia.
    + now rewrite andb_false_r.
Qed.

End Ratio.

(** On the small browser the deflated pixels of the 2x2 image are
    longer than the pixels, and the ratio is left out; with the JPEG
    that drops the alpha bytes the payload is shorter than the file,
    and the ratio is shown. *)
Lemma compressionRatio_reported_witness :
  (imageToAudio (browser := Standin.browser) Standin.file_2x2 full_options
   = Ok result_2x2
   /\ SonificationResult.compressionRatio result_2x2 = js_div 16 27
   /\ resultInfo_compressionRatio result_2x2 = None)
  /\ (imageToAudio (browser := Standin.browser_rgb) Standin.file_2x2
        compressed_options
      = Ok result_2x2_rgb
      /\ SonificationResult.compressionRatio result_2x2_rgb = js_div 18 14
      /\ resultInfo_compressionRatio result_2x2_rgb = Some (js_div 18 14)).
Proof.
  assert (E : imageToAudio (browser := Standin.browser) Standin.file_2x2
                full_options = Ok result_2x2) by (vm_compute; reflexivity).
  assert (F : imageToAudio (browser := Standin.browser_rgb) Standin.file_2x2
                compressed_options = Ok result_2x2_rgb)
    by (vm_compute; reflexivity).
  split.
  - split; [exact E|].
    destruct (compressionRatio_reported (browser := Standin.browser)
                Standin.file_2x2 full_options result_2x2 E)
      as (payload & headerBytes & originalSize & Hp & _ & Hratio & Hshown).
    vm_compute in Hp. injection Hp as <- _ <-.
    split; [exact Hratio | exact Hshown].
  - split; [exact F|].
    destruct (compressionRatio_reported (browser := Standin.browser_rgb)
                Standin.file_2x2 compressed_options result_2x2_rgb F)
      as (payload & headerBytes & originalSize & Hp & _ & Hratio & Hshown).
    vm_compute in Hp. injection Hp as <- _ <-.
    split; [exact Hratio | exact Hshown].
Defined.

(** * Further properties *)

(** ** Integers and bytes *)

(** X1. Reading back the four bytes [int32ToBytes] makes of any integer
    gives that integer modulo 2^32: itself from 0 up to 2^32 - 1, and
    2^32 more than itself for a negative 32-bit number. *)
Theorem bytesToInt32_of_int32ToBytes (v : Z) :
  bytesToInt32 (int32ToBytes v) 0 = v mod 2 ^ 32.
Proof.
  rewrite <- (app_nil_r (int32ToBytes v)).
  exact (bytesToInt32_int32ToBytes [] [] v).
Qed.

(** X2. Four bytes read as an integer and written back are the same
    four bytes: on bytes, [bytesToInt32] and [int32ToBytes] are inverse
    to each other. *)
Theorem int32ToBytes_of_bytesToInt32 (b0 b1 b2 b3 : Z) :
  is_byte b0 -> is_byte b1 -> is_byte b2 -> is_byte b3 ->
  int32ToBytes (bytesToInt32 [b0; b1; b2; b3] 0) = [b0; b1; b2; b3].
Proof.
  intros H0 H1 H2 H3.
  rewrite (bytesToInt32_at [] [] b0 b1 b2 b3 : bytesToInt32 [b0; b1; b2; b3] 0 = _).
  rewrite js_or_bytes by assumption.
  rewrite int32ToBytes_bytes. unfold is_byte in *.
  change (2 ^ 8) with 256. change (2 ^ 16) with 65536.
  change (2 ^ 24) with 16777216.
  repeat (apply (f_equal2 cons); [lia|]). reflexivity.
Qed.

Lemma int32ToBytes_of_bytesToInt32_witness :
  int32ToBytes (bytesToInt32 [0x4c; 0x4c; 0x55; 0x46] 0) = [0x4c; 0x4c; 0x55; 0x46].
Proof.
  apply (int32ToBytes_of_bytesToInt32 0x4c 0x4c 0x55 0x46);
    unfold is_byte; lia.
Defined.

(** ** The sample codec under noise *)

(** X3. A sample may be off by less than half a step and still decodes
    to the byte it was made from: for a byte [b] and an error [d] from
    -128 to 127, the sample [byteToSample b + d] decodes to [b]. *)
Theorem sampleToByte_tolerates_noise (b d : Z) :
  0 <= b <= 255 -> -128 <= d < 128 ->
  sampleToByte (Int (byteToSample b + d)) = Int b.
Proof.
  intros Hb Hd. rewrite sampleToByte_Int. unfold byteToSample.
  f_equal. lia.
Qed.

Lemma sampleToByte_tolerates_noise_witness :
  sampleToByte (Int (byteToSample 200 + 127)) = Int 200
  /\ sampleToByte (Int (byteToSample 200 - 128)) = Int 200.
Proof.
  split.
  - apply (sampleToByte_tolerates_noise 200 127); lia.
  - apply (sampleToByte_tolerates_noise 200 (-128)); lia.
Defined.

(** X4. Decoding keeps the order of samples: a larger sample never
    decodes to a smaller byte. *)
Theorem sampleToByte_monotone (s t b c : Z) :
  s <= t ->
  sampleToByte (Int s) = Int b -> sampleToByte (Int t) = Int c ->
  b <= c.
Proof.
  intros Hst. rewrite !sampleToByte_Int.
  intros Hb Hc.
  assert (Eb : b = Z.max 0 (Z.min 255 ((s + 128) / 256 + 128))) by congruence.
  assert (Ec : c = Z.max 0 (Z.min 255 ((t + 128) / 256 + 128))) by congruence.
  lia.
Qed.

Lemma sampleToByte_monotone_witness : 0 <= 129.
Proof.
  apply (sampleToByte_monotone (-32768) 300 0 129).
  - lia.
  - vm_compute. reflexivity.
  - vm_compute. reflexivity.
Defined.

(** X5. Decoding saturates: every sample from 32384 on decodes to 255
    and every sample up to -32641 decodes to 0; between the two the
    byte is [floor ((s + 128) / 256) + 128]. *)
Theorem sampleToByte_saturates (s : Z) :
  sampleToByte (Int s)
  = Int (if s <? -32640 then 0
         else if 32384 <=? s then 255
         else (s + 128) / 256 + 128).
Proof.
  rewrite sampleToByte_Int. f_equal.
  destruct (s <? -32640) eqn:E1; [apply Z.ltb_lt in E1; lia|].
  apply Z.ltb_ge in E1.
  destruct (32384 <=? s) eqn:E2; [apply Z.leb_le in E2; lia|].
  apply Z.leb_gt in E2. lia.
Qed.

(** ** The WAV header *)

(** X6. For every data size the header is 44 bytes that read back as a
    PCM WAV header: the tags RIFF, WAVE, "fmt " and "data" in their
    places, a RIFF size of the data size plus 36 and the data size
    itself as 32-bit numbers, a 16-byte format chunk for PCM (format
    1), one channel, 44100 samples a second, 88200 bytes a second,
    2 bytes a block and 16 bits a sample. *)
Theorem createWavHeader_fields (dataSize : Z) :
  let header := createWavHeader dataSize in
  byteLength header = 44
  /\ is_bytes header
  /\ fourCC header 0 = Ok (str "RIFF")
  /\ getUint32 header 4 = Ok ((36 + dataSize) mod 2 ^ 32)
  /\ fourCC header 8 = Ok (str "WAVE")
  /\ fourCC header 12 = Ok (str "fmt ")
  /\ getUint32 header 16 = Ok 16
  /\ getUint16 header 20 = Ok 1
  /\ getUint16 header 22 = Ok 1
  /\ getUint32 header 24 = Ok 44100
  /\ getUint32 header 28 = Ok 88200
  /\ getUint16 header 32 = Ok 2
  /\ getUint16 header 34 = Ok 16
  /\ fourCC header 36 = Ok (str "data")
  /\ getUint32 header 40 = Ok (dataSize mod 2 ^ 32).
Proof.
  intros header. unfold header.
  assert (Hdata : getUint32 (createWavHeader dataSize) 40
                  = Ok (dataSize mod 2 ^ 32)).
  { rewrite <- (app_nil_r (createWavHeader dataSize)). apply wav_data_size. }
  assert (Hriff : getUint32 (createWavHeader dataSize) 4
                  = Ok ((36 + dataSize) mod 2 ^ 32)).
  { rewrite createWavHeader_layout, !int32ToBytes_bytes.
    generalize (36 + dataSize). intros v.
    transitivity
      (Ok (v mod 256 + 2 ^ 8 * ((v / 2 ^ 8) mod 256)
           + 2 ^ 16 * ((v / 2 ^ 16) mod 256)
           + 2 ^ 24 * ((v / 2 ^ 24) mod 256))); [reflexivity|].
    f_equal.
    change (2 ^ 8) with 256. change (2 ^ 16) with 65536.
    change (2 ^ 24) with 16777216. change (2 ^ 32) with 4294967296. lia. }
  assert (Hbytes : is_bytes (createWavHeader dataSize)).
  { rewrite createWavHeader_layout. unfold is_bytes. rewrite !Forall_app.
    repeat split; try apply int32ToBytes_is_bytes.
    - apply is_bytes_check. reflexivity.
    - apply is_bytes_check. reflexivity. }
  split; [unfold byteLength; now rewrite createWavHeader_length|].
  split; [exact Hbytes|].
  rewrite Hdata, Hriff.
  rewrite createWavHeader_layout, !int32ToBytes_bytes.
  repeat (split; [reflexivity|]). reflexivity.
Qed.

(** ** Chunks before the data chunk *)

Lemma getUint8_app_plus (pre l : list Z) (k : nat) :
  getUint8 (pre ++ l) (byteLength pre + Z.of_nat k) = getUint8 l (Z.of_nat k).
Proof.
  unfold getUint8, byteLength.
  replace (Z.of_nat (length pre) + Z.of_nat k <? 0) with false
    by (symmetry; apply Z.ltb_ge; lia).
  replace (Z.of_nat k <? 0) with false by (symmetry; apply Z.ltb_ge; lia).
  replace (Z.to_nat (Z.of_nat (length pre) + Z.of_nat k))
    with (length pre + k)%nat by lia.
  rewrite Nat2Z.id, nth_error_app2 by lia.
  now replace (length pre + k - length pre)%nat with k by lia.
Qed.

(** The chunk header found where eight bytes follow a prefix. *)
Lemma readChunkHeader_at (pre rest : list Z) (t0 t1 t2 t3 s0 s1 s2 s3 : Z) :
  readChunkHeader (pre ++ t0 :: t1 :: t2 :: t3 :: s0 :: s1 :: s2 :: s3 :: rest)
                  (byteLength pre)
  = Ok ([t0; t1; t2; t3], s0 + 2 ^ 8 * s1 + 2 ^ 16 * s2 + 2 ^ 24 * s3).
Proof.
  unfold readChunkHeader, fourCC, getUint32.
  set (l := t0 :: t1 :: t2 :: t3 :: s0 :: s1 :: s2 :: s3 :: rest).
  replace (byteLength pre) with (byteLength pre + Z.of_nat 0) at 1 by (cbn; lia).
  replace (byteLength pre + 1) with (byteLength pre + Z.of_nat 1) by (cbn; lia).
  replace (byteLength pre + 2) with (byteLength pre + Z.of_nat 2) by (cbn; lia).
  replace (byteLength pre + 3) with (byteLength pre + Z.of_nat 3) by (cbn; lia).
  replace (byteLength pre + 4) with (byteLength pre + Z.of_nat 4) by (cbn; lia).
  replace (byteLength pre + Z.of_nat 4 + 1) with (byteLength pre + Z.of_nat 5)
    by (cbn; lia).
  replace (byteLength pre + Z.of_nat 4 + 2) with (byteLength pre + Z.of_nat 6)
    by (cbn; lia).
  replace (byteLength pre + Z.of_nat 4 + 3) with (byteLength pre + Z.of_nat 7)
    by (cbn; lia).
  rewrite !getUint8_app_plus. reflexivity.
Qed.

Lemma string_eqb_neq (a b : list Z) : a <> b -> string_eqb a b = false.
Proof.
  intros H. destruct (string_eqb a b) eqn:E; [|reflexivity].
  apply string_eqb_eq in E. contradiction.
Qed.

Lemma string_eqb_refl (a : list Z) : string_eqb a a = true.
Proof. now apply string_eqb_eq. Qed.

Lemma riffChunks_length (chunks : list (list Z * list Z)) :
  Forall skippedChunk chunks ->
  (8 * length chunks <= length (riffChunks chunks))%nat.
Proof.
  induction 1 as [|[tag body] chunks [Htag _] _ IH]; [cbn; lia|].
  cbn [riffChunks flat_map fst snd length] in *. fold (riffChunks chunks).
  unfold riffChunk. rewrite !length_app, int32ToBytes_length. cbn [fst] in Htag.
  lia.
Qed.

(** The search steps over the chunks that are not tagged "data" and
    stops behind the header of the first one that is, if at least one
    byte follows that header. *)
Lemma findDataChunk_skips (chunks : list (list Z * list Z)) :
  forall (pre sizeField payload : list Z) (fuel : nat),
    Forall skippedChunk chunks ->
    length sizeField = 4%nat -> payload <> [] ->
    (length chunks < fuel)%nat ->
    findDataChunk fuel
      (pre ++ riffChunks chunks ++ str_data ++ sizeField ++ payload)
      (byteLength pre)
    = Some (Ok (Found (byteLength pre + byteLength (riffChunks chunks) + 8))).
Proof.
  induction chunks as [|[tag body] chunks IH];
    intros pre sizeField payload fuel Hchunks Hsize Hpayload Hfuel.
  - destruct fuel as [|fuel]; [cbn in Hfuel; lia|].
    destruct sizeField as [|s0 [|s1 [|s2 [|s3 [|]]]]]; try discriminate.
    cbn [riffChunks flat_map app str_data findDataChunk].
    replace (byteLength pre <? _) with true.
    2:{ symmetry. apply Z.ltb_lt. unfold byteLength.
        rewrite length_app. cbn [length].
        destruct payload; [contradiction|]. cbn [length]. lia. }
    rewrite readChunkHeader_at.
    change (string_eqb [100; 97; 116; 97] str_data) with true.
    cbv iota. do 3 f_equal. unfold byteLength. cbn [length]. lia.
  - destruct fuel as [|fuel]; [cbn in Hfuel; lia|].
    inversion Hchunks as [|c cs [Htag [Hne Hlen]] Hrest]; subst.
    cbn [fst snd] in Htag, Hne, Hlen.
    destruct tag as [|t0 [|t1 [|t2 [|t3 [|]]]]]; try discriminate.
    cbn [riffChunks flat_map fst snd]. fold (riffChunks chunks).
    unfold riffChunk at 1. rewrite int32ToBytes_bytes.
    cbn [app findDataChunk]. rewrite <- !app_assoc. cbn [app].
    replace (byteLength pre <? _) with true.
    2:{ symmetry. apply Z.ltb_lt. unfold byteLength.
        rewrite length_app. cbn [length]. rewrite !length_app.
        cbn [length str_data]. destruct payload; [contradiction|].
        cbn [length]. lia. }
    rewrite readChunkHeader_at.
    rewrite (string_eqb_neq _ _ Hne).
    set (n := byteLength body) in *.
    assert (Hn : n mod 256 + 2 ^ 8 * ((n / 2 ^ 8) mod 256)
                 + 2 ^ 16 * ((n / 2 ^ 16) mod 256)
                 + 2 ^ 24 * ((n / 2 ^ 24) mod 256) = n).
    { assert (0 <= n) by (unfold n, byteLength; lia).
      change (2 ^ 8) with 256. change (2 ^ 16) with 65536.
      change (2 ^ 24) with 16777216. change (2 ^ 32) with 4294967296 in Hlen.
      lia. }
    rewrite Hn.
    set (hd := [t0; t1; t2; t3; n mod 256; (n / 2 ^ 8) mod 256;
                (n / 2 ^ 16) mod 256; (n / 2 ^ 24) mod 256]).
    change (pre ++ t0 :: t1 :: t2 :: t3 :: n mod 256 :: (n / 2 ^ 8) mod 256
              :: (n / 2 ^ 16) mod 256 :: (n / 2 ^ 24) mod 256
              :: body ++ riffChunks chunks ++ str_data ++ sizeField ++ payload)
      with (pre ++ hd ++ body ++ riffChunks chunks ++ str_data ++ sizeField ++ payload).
    rewrite (app_assoc hd), (app_assoc pre).
    replace (byteLength pre + 8 + n) with (byteLength (pre ++ hd ++ body))
      by (unfold n, byteLength; rewrite !length_app; cbn [hd length]; lia).
    rewrite IH by (auto; cbn [length] in Hfuel; lia).
    do 3 f_equal. unfold byteLength.
    rewrite !length_app. cbn [hd length].
    unfold riffChunk. rewrite !length_app, int32ToBytes_length. cbn [length]. lia.
Qed.

(** X7. Chunks in front of the data chunk are skipped and the size
    field of the data chunk is not used: in a file made of a 12-byte
    RIFF header, any chunks that are not tagged "data", the tag "data",
    four bytes of any value and a non-empty rest, the samples are read
    from that whole rest. *)
Theorem extractSamples_skips_chunks (riff sizeField payload : list Z)
    (chunks : list (list Z * list Z)) :
  length riff = 12%nat -> firstn 4 riff = str_RIFF ->
  Forall skippedChunk chunks ->
  length sizeField = 4%nat -> payload <> [] ->
  extractSamples (riff ++ riffChunks chunks ++ str_data ++ sizeField ++ payload)
  = Some (new_Int16Array payload).
Proof.
  intros Hriff Htag Hchunks Hsize Hpayload.
  set (file := riff ++ riffChunks chunks ++ str_data ++ sizeField ++ payload).
  unfold extractSamples.
  assert (Hfour : fourCC file 0 = Ok str_RIFF).
  { unfold file. rewrite fourCC_firstn by (rewrite length_app; lia).
    rewrite firstn_app, Hriff. change (4 - 12)%nat with 0%nat.
    now rewrite firstn_O, app_nil_r, Htag. }
  rewrite Hfour, string_eqb_refl. cbn [negb].
  replace 12 with (byteLength riff) by (unfold byteLength; now rewrite Hriff).
  unfold file. rewrite findDataChunk_skips; try assumption.
  - cbn [scan_offset]. f_equal.
    replace (byteLength riff + byteLength (riffChunks chunks) + 8)
      with (byteLength (riff ++ riffChunks chunks ++ str_data ++ sizeField))
      by (unfold byteLength; rewrite !length_app, Hsize; cbn [length str_data]; lia).
    replace (riff ++ riffChunks chunks ++ str_data ++ sizeField ++ payload)
      with ((riff ++ riffChunks chunks ++ str_data ++ sizeField) ++ payload)
      by (now rewrite <- !app_assoc).
    now rewrite slice_app.
  - pose proof (riffChunks_length chunks Hchunks).
    rewrite !length_app. lia.
Qed.

Lemma extractSamples_skips_chunks_witness :
  extractSamples wav_with_list_chunk = Some (Ok (map byteToSample [1; 2; 3])).
Proof.
  assert (H : extractSamples wav_with_list_chunk
              = Some (new_Int16Array (Int16Array_buffer (map byteToSample [1; 2; 3])))).
  { apply (extractSamples_skips_chunks
             (str_RIFF ++ [0; 0; 0; 0] ++ str "WAVE")
             [0; 0; 0; 0]
             (Int16Array_buffer (map byteToSample [1; 2; 3]))
             [(str "fmt ", repeat 0 16); (str "LIST", [7; 8; 9])]).
    - reflexivity.
    - reflexivity.
    - repeat constructor; cbn; (discriminate || lia).
    - reflexivity.
    - discriminate. }
  rewrite H. vm_compute. reflexivity.
Defined.


(** ** What the reader of the container can end with *)

Lemma fourCC_throws (view : list Z) (i : Z) (e : error) :
  fourCC view i = Throw e -> e = RangeError.
Proof.
  unfold fourCC.
  assert (H8 : forall j e', getUint8 view j = Throw e' -> e' = RangeError).
  { intros j e'. unfold getUint8. destruct (j <? 0); [congruence|].
    destruct (nth_error view (Z.to_nat j)); congruence. }
  destruct (getUint8 view i) eqn:E0; cbn [bind]; [|intros [= <-]; eauto].
  destruct (getUint8 view (i + 1)) eqn:E1; cbn [bind]; [|intros [= <-]; eauto].
  destruct (getUint8 view (i + 2)) eqn:E2; cbn [bind]; [|intros [= <-]; eauto].
  destruct (getUint8 view (i + 3)) eqn:E3; cbn [bind]; [|intros [= <-]; eauto].
  discriminate.
Qed.

(** X8. On every buffer of bytes the first part of [audioToImage] comes
    to an end: the search loop stops, and the only errors are the
    invalid-WAV error and the [RangeError] (of a buffer shorter than
    four bytes, or of an odd number of bytes left for the samples). *)
Theorem extractSamples_outcomes (file : list Z) :
  is_bytes file ->
  exists r, extractSamples file = Some r
            /\ forall e, r = Throw e -> e = InvalidWavFile \/ e = RangeError.
Proof.
  intros Hf. unfold extractSamples.
  destruct (fourCC file 0) as [riff|e] eqn:E.
  - destruct (negb (string_eqb riff str_RIFF)).
    + eexists. split; [reflexivity|]. intros e [= <-]. now left.
    + destruct (findDataChunk_total file (S (length file)) 12 Hf) as [s ->];
        [lia | lia | unfold byteLength; lia |].
      eexists. split; [reflexivity|]. intros e He.
      right. exact (new_Int16Array_throws _ _ He).
  - eexists. split; [reflexivity|]. intros e' [= <-].
    right. exact (fourCC_throws _ _ _ E).
Qed.

Lemma extractSamples_outcomes_witness :
  exists r, extractSamples wav_without_data = Some r
            /\ forall e, r = Throw e -> e = InvalidWavFile \/ e = RangeError.
Proof.
  apply (extractSamples_outcomes wav_without_data).
  apply is_bytes_check. vm_compute. reflexivity.
Defined.

Lemma new_Int16Array_odd (a : list Z) (b : Z) :
  new_Int16Array (Int16Array_buffer a ++ [b]) = Throw RangeError.
Proof.
  induction a as [|s a IH]; [reflexivity|].
  cbn [Int16Array_buffer flat_map app new_Int16Array].
  fold (Int16Array_buffer a). now rewrite IH.
Qed.

Section TrailingByte.
Context {browser : Browser}.

(** X9. One stray byte after an encoded file is enough to make it
    undecodable: the bytes after the data header no longer pair up into
    samples, and [audioToImage] ends with a [RangeError]. *)
Theorem audioToImage_trailing_byte (data headerBytes : list Z) (b : Z) :
  0 < byteLength headerBytes + byteLength data ->
  audioToImage (bytesToWav data headerBytes ++ [b]) = Some (Throw RangeError).
Proof.
  intros Hpos. rewrite bytesToWav_layout, <- app_assoc.
  set (ds := (byteLength headerBytes + byteLength data) * 2).
  set (body := Int16Array_buffer (encodeSamples headerBytes data) ++ [b]).
  assert (Hlen : 44 < byteLength (createWavHeader ds ++ body)).
  { unfold byteLength. rewrite length_app, createWavHeader_length.
    unfold body. rewrite length_app. cbn [length]. lia. }
  unfold audioToImage, extractSamples. rewrite wav_riff.
  change (string_eqb str_RIFF str_RIFF) with true. cbn [negb].
  assert (Hfuel : exists fuel, S (length (createWavHeader ds ++ body)) = S (S fuel)).
  { exists (pred (length (createWavHeader ds ++ body))).
    rewrite length_app, createWavHeader_length. reflexivity. }
  destruct Hfuel as [fuel ->].
  rewrite findDataChunk_fmt_then_data;
    [ | exact Hlen | apply wav_fmt_tag | apply wav_fmt_size | apply wav_data_tag ].
  cbn [scan_offset].
  replace 44 with (byteLength (createWavHeader ds))
    by (unfold byteLength; now rewrite createWavHeader_length).
  rewrite slice_app. unfold body. now rewrite new_Int16Array_odd.
Qed.

End TrailingByte.

Lemma audioToImage_trailing_byte_witness :
  audioToImage (browser := Standin.browser)
    (bytesToWav (Standin.zlib_deflate Standin.pixels_2x2) (fullHeader 2 2 16)
     ++ [0])
  = Some (Throw RangeError).
Proof.
  apply (audioToImage_trailing_byte (browser := Standin.browser)).
  vm_compute. reflexivity.
Defined.

(** ** [validateSonifiedAudio] *)

(** X10. [validateSonifiedAudio] accepts exactly the buffers of at
    least four bytes that begin with "RIFF"; shorter buffers are
    refused, not an error. *)
Theorem validateSonifiedAudio_spec (file : list Z) :
  validateSonifiedAudio file = true
  <-> (4 <= length file)%nat /\ firstn 4 file = str_RIFF.
Proof.
  unfold validateSonifiedAudio.
  destruct (Nat.le_gt_cases 4 (length file)) as [Hlen | Hlen].
  - rewrite fourCC_firstn by exact Hlen. rewrite string_eqb_eq. tauto.
  - rewrite fourCC_short by exact Hlen. split; [discriminate | lia].
Qed.

Section Validation.
Context {browser : Browser}.

(** X11. Whatever [audioToImage] decodes, [validateSonifiedAudio]
    accepts: a file the validation refuses never gives an image. *)
Theorem audioToImage_validates (file : list Z) (r : ReconstructionResult.t) :
  audioToImage file = Some (Ok r) -> validateSonifiedAudio file = true.
Proof.
  unfold audioToImage, extractSamples, validateSonifiedAudio.
  destruct (fourCC file 0) as [riff|e]; [|discriminate].
  destruct (string_eqb riff str_RIFF); [reflexivity|discriminate].
Qed.

End Validation.

Lemma audioToImage_validates_witness :
  validateSonifiedAudio
    (bytesToWav (Standin.zlib_deflate Standin.pixels_2x2) (fullHeader 2 2 16))
  = true.
Proof.
  apply (audioToImage_validates (browser := Standin.browser) _
           {| ReconstructionResult.imageBlob :=
                PngBlob {| ImageData.data := Standin.pixels_2x2;
                           ImageData.width := 2;
                           ImageData.height := 2 |};
              ReconstructionResult.width := 2;
              ReconstructionResult.height := 2 |}).
  vm_compute. reflexivity.
Defined.

(** ** Decoding what was encoded, whatever follows *)

Lemma decodeBytes_header (hdr data rest : list Z) (k : nat) :
  is_bytes hdr -> (k <= length hdr)%nat ->
  decodeBytes (encodeSamples hdr data ++ rest) 0 k = firstn k hdr.
Proof.
  intros Hh Hk. unfold encodeSamples.
  rewrite <- (firstn_skipn k hdr) at 1.
  rewrite map_app, <- !app_assoc.
  apply decodeBytes_encoded_n; [now apply is_bytes_firstn|].
  rewrite length_firstn. lia.
Qed.

Lemma fill_encoded_byte (store : number -> Z) (b : Z) :
  (forall v, is_byte v -> store (Int v) = v) -> is_byte b ->
  store (sampleToByte (Int (ToInt16 (byteToSample b)))) = b.
Proof.
  intros Hstore Hb. rewrite ToInt16_small by now apply byteToSample_int16.
  unfold byteToSample. rewrite sampleToByte_multiple.
  unfold is_byte in Hb.
  replace (Z.max 0 (Z.min 255 (b - 128 + 128))) with b by lia.
  now apply Hstore.
Qed.

(** The loop over the samples of a payload gives the payload back,
    into a [Uint8Array] as into a [Uint8ClampedArray], whatever samples
    follow. *)
Lemma fillFromSamples_payload (store : number -> Z) (hdr data rest : list Z) :
  (forall v, is_byte v -> store (Int v) = v) -> is_bytes data ->
  fillFromSamples store (encodeSamples hdr data ++ rest) (length hdr)
    (length data) = data.
Proof.
  intros Hstore Hd. rewrite fillFromSamples_split. unfold encodeSamples.
  rewrite <- app_assoc.
  set (e := fun b => ToInt16 (byteToSample b)).
  replace (length hdr) with (length (map e hdr)) by apply length_map.
  rewrite skipn_app, skipn_all, Nat.sub_diag. cbn [skipn app].
  replace (length data) with (length (map e data)) at 1 2 by apply length_map.
  rewrite firstn_app, firstn_all, Nat.sub_diag. cbn [firstn].
  rewrite app_nil_r, length_app, length_map.
  replace (length data - (length data + length rest))%nat with 0%nat by lia.
  cbn [repeat]. rewrite app_nil_r, map_map.
  rewrite <- (map_id data) at 2. apply map_ext_in. intros b Hin.
  apply fill_encoded_byte; [exact Hstore|].
  exact (proj1 (Forall_forall _ _) Hd b Hin).
Qed.

Lemma ToUint8_byte (v : Z) : is_byte v -> ToUint8 (Int v) = v.
Proof. unfold is_byte. intros H. cbn [ToUint8]. apply Z.mod_small. lia. Qed.

Lemma ToUint8Clamp_byte (v : Z) : is_byte v -> ToUint8Clamp (Int v) = v.
Proof. unfold is_byte. intros H. cbn [ToUint8Clamp]. lia. Qed.

Lemma jpegHeader_is_bytes (n : Z) : is_bytes (jpegHeader n).
Proof.
  unfold jpegHeader, is_bytes. rewrite Forall_app.
  split; apply int32ToBytes_is_bytes.
Qed.

Lemma jpegHeader_length (n : Z) : length (jpegHeader n) = 8%nat.
Proof. reflexivity. Qed.

Lemma legacyHeader_length (w h c : Z) : length (legacyHeader w h c) = 12%nat.
Proof. reflexivity. Qed.

Lemma jpegHeader_length_field (n : Z) :
  bytesToInt32 (jpegHeader n) 4 = ToUint32 n.
Proof.
  unfold jpegHeader. rewrite <- (app_nil_r (int32ToBytes n)).
  exact (bytesToInt32_int32ToBytes (int32ToBytes MAGIC_JPEG) [] n).
Qed.

Lemma legacyHeader_fields (w h c : Z) :
  bytesToInt32 (legacyHeader w h c) 0 = ToUint32 w
  /\ bytesToInt32 (legacyHeader w h c) 4 = ToUint32 h
  /\ bytesToInt32 (legacyHeader w h c) 8 = ToUint32 c.
Proof.
  unfold legacyHeader. split; [|split].
  - exact (bytesToInt32_int32ToBytes [] _ w).
  - exact (bytesToInt32_int32ToBytes (int32ToBytes w) _ h).
  - rewrite (app_assoc (int32ToBytes w)).
    rewrite <- (app_nil_r (int32ToBytes c)).
    exact (bytesToInt32_int32ToBytes (int32ToBytes w ++ int32ToBytes h) [] c).
Qed.

Lemma legacyHeader_is_bytes (w h c : Z) : is_bytes (legacyHeader w h c).
Proof.
  unfold legacyHeader, is_bytes. rewrite !Forall_app.
  repeat split; apply int32ToBytes_is_bytes.
Qed.

Section Compressed.
Context {browser : Browser}.

Lemma encodePayload_compressed (file : list Z) (options : SonificationOptions.t)
    (jpeg : list Z) :
  SonificationOptions.quality options = compressed ->
  imageToJpegBlob file (jpegQualityOf options) = Ok jpeg ->
  encodePayload file options
  = Ok (jpeg, jpegHeader (byteLength jpeg), byteLength file).
Proof.
  intros Hq Hjpeg. unfold jpegQualityOf in Hjpeg.
  unfold encodePayload. rewrite Hq, Hjpeg. reflexivity.
Qed.

(** Decoding the samples of a JPEG header followed by the JPEG bytes:
    samples after them do not count. *)
Lemma decodeSamples_jpeg (jpeg rest : list Z) :
  is_bytes jpeg -> byteLength jpeg < 2 ^ 32 ->
  decodeSamples (encodeSamples (jpegHeader (byteLength jpeg)) jpeg ++ rest)
  = (' (width, height) <- getImageDimensions jpeg ;;
     Ok {| ReconstructionResult.imageBlob := JpegBlob jpeg;
           ReconstructionResult.width := width;
           ReconstructionResult.height := height |}).
Proof.
  intros Hj Hfit.
  set (n := byteLength jpeg) in *.
  set (samples := encodeSamples (jpegHeader n) jpeg ++ rest).
  assert (Hhdr : forall k, (k <= 8)%nat ->
            decodeBytes samples 0 k = firstn k (jpegHeader n)).
  { intros k Hk. apply decodeBytes_header; [apply jpegHeader_is_bytes|].
    exact Hk. }
  assert (Hmagic : readMagic samples = MAGIC_JPEG).
  { rewrite readMagic_eq, (Hhdr 4%nat) by lia.
    exact (bytesToInt32_int32ToBytes [] [] MAGIC_JPEG). }
  assert (Hlen : jpegLengthOf samples = n).
  { rewrite jpegLengthOf_eq, (Hhdr 8%nat) by lia.
    change (firstn 8 (jpegHeader n)) with (jpegHeader n).
    rewrite jpegHeader_length_field.
    apply ToUint32_small. unfold n, byteLength in *. lia. }
  unfold decodeSamples. rewrite Hmagic.
  change (MAGIC_JPEG =? MAGIC_JPEG) with true. cbv iota.
  rewrite decodeJpeg_fields, Hlen. unfold new_Uint8Array.
  replace (n <? 0) with false
    by (symmetry; apply Z.ltb_ge; unfold n, byteLength; lia).
  cbn [bind]. cbv zeta.
  replace (decodeBytes samples 8 (Z.to_nat n)) with jpeg; [reflexivity|].
  symmetry. unfold n, byteLength. rewrite Nat2Z.id.
  exact (fillFromSamples_payload ToUint8 (jpegHeader (byteLength jpeg)) jpeg rest
           ToUint8_byte Hj).
Qed.

(** X12. An image encoded in compressed mode decodes to exactly the
    JPEG bytes the canvas made of it, with the width and height the
    browser finds in them: the JPEG passes through the WAV file
    unchanged. *)
Theorem compressed_round_trip (file : list Z) (options : SonificationOptions.t)
    (jpeg : list Z) (img : RawPixelData.t) :
  SonificationOptions.quality options = compressed ->
  imageToJpegBlob file (jpegQualityOf options) = Ok jpeg ->
  is_bytes jpeg -> byteLength jpeg < 2 ^ 32 ->
  loadImage jpeg = Some img ->
  exists result wav,
    imageToAudio file options = Ok result
    /\ SonificationResult.audioBlob result = WavBlob wav
    /\ audioToImage wav
       = Some (Ok {| ReconstructionResult.imageBlob := JpegBlob jpeg;
                     ReconstructionResult.width := RawPixelData.width img;
                     ReconstructionResult.height := RawPixelData.height img |}).
Proof.
  intros Hq Hjpeg Hbytes Hfit Himg.
  unfold imageToAudio.
  rewrite (encodePayload_compressed file options jpeg Hq Hjpeg). cbn [bind].
  eexists. eexists. split; [reflexivity|]. split; [reflexivity|].
  unfold audioToImage. rewrite extractSamples_bytesToWav
    by (unfold byteLength; rewrite jpegHeader_length; lia).
  cbn [bind]. f_equal.
  rewrite <- (app_nil_r (encodeSamples _ _)).
  rewrite (decodeSamples_jpeg jpeg [] Hbytes Hfit).
  unfold getImageDimensions. rewrite Himg. reflexivity.
Qed.

(** X13. In the compressed format the samples after the JPEG bytes the
    header announces are not read: decoding gives the same result with
    anything appended to the sample stream. *)
Theorem decodeSamples_jpeg_ignores_rest (jpeg rest : list Z) :
  is_bytes jpeg -> byteLength jpeg < 2 ^ 32 ->
  decodeSamples (encodeSamples (jpegHeader (byteLength jpeg)) jpeg ++ rest)
  = decodeSamples (encodeSamples (jpegHeader (byteLength jpeg)) jpeg).
Proof.
  intros Hj Hfit. rewrite (decodeSamples_jpeg jpeg rest Hj Hfit).
  rewrite <- (app_nil_r (encodeSamples _ jpeg)) at 1.
  now rewrite (decodeSamples_jpeg jpeg [] Hj Hfit).
Qed.

End Compressed.

Lemma compressed_round_trip_witness :
  exists result wav,
    imageToAudio (browser := Standin.browser) Standin.file_2x2 compressed_options
    = Ok result
    /\ SonificationResult.audioBlob result = WavBlob wav
    /\ audioToImage (browser := Standin.browser) wav
       = Some (Ok {| ReconstructionResult.imageBlob := JpegBlob jpeg_2x2;
                     ReconstructionResult.width := 2;
                     ReconstructionResult.height := 2 |}).
Proof.
  apply (compressed_round_trip (browser := Standin.browser)
           Standin.file_2x2 compressed_options jpeg_2x2
           {| RawPixelData.width := 2; RawPixelData.height := 2;
              RawPixelData.data := skipn 2 jpeg_2x2 |}).
  - reflexivity.
  - vm_compute. reflexivity.
  - apply is_bytes_check. vm_compute. reflexivity.
  - vm_compute. reflexivity.
  - vm_compute. reflexivity.
Defined.

Lemma decodeSamples_jpeg_ignores_rest_witness :
  decodeSamples (browser := Standin.browser)
    (encodeSamples (jpegHeader (byteLength jpeg_2x2)) jpeg_2x2 ++ [1; 2; 3])
  = decodeSamples (browser := Standin.browser)
      (encodeSamples (jpegHeader (byteLength jpeg_2x2)) jpeg_2x2).
Proof.
  apply (decodeSamples_jpeg_ignores_rest (browser := Standin.browser)).
  - apply is_bytes_check. vm_compute. reflexivity.
  - vm_compute. reflexivity.
Defined.

(** ** The legacy format *)

(** The magic number and the legacy width are the same four bytes. *)
Lemma readMagic_legacyWidth (samples : list Z) :
  readMagic samples = legacyWidth samples.
Proof.
  rewrite readMagic_eq, legacyWidth_eq.
  rewrite (decodeBytes_app samples 0 4 8 : decodeBytes samples 0 12 = _).
  pose proof (decodeBytes_length samples 0 4) as Hlen.
  destruct (decodeBytes samples 0 4) as [|a [|b [|c [|d [|]]]]];
    try discriminate Hlen.
  cbn [app].
  rewrite (bytesToInt32_at [] [] a b c d : bytesToInt32 [a; b; c; d] 0 = _).
  now rewrite (bytesToInt32_at [] (decodeBytes samples (0 + 4) 8) a b c d
               : bytesToInt32 (a :: b :: c :: d :: _) 0 = _).
Qed.

Lemma bytesToInt32_range (bytes : list Z) (offset : Z) :
  0 <= bytesToInt32 bytes offset < 2 ^ 32.
Proof. unfold bytesToInt32, js_shr0. apply ToUint32_range. Qed.

(** What [new ImageData] accepts. *)
Lemma new_ImageData_inv (data : list Z) (sw sh : Z) (img : ImageData.t) :
  new_ImageData data sw sh = Ok img ->
  img = {| ImageData.data := data; ImageData.width := sw; ImageData.height := sh |}
  /\ byteLength data = 4 * sw * sh /\ byteLength data <> 0 /\ sw <> 0.
Proof.
  unfold new_ImageData. cbv zeta.
  destruct (byteLength data =? 0) eqn:E0; cbn [orb]; [discriminate|].
  destruct (byteLength data mod 4 =? 0) eqn:E4; cbn [negb]; [|discriminate].
  destruct (sw =? 0) eqn:Es; cbn [orb]; [discriminate|].
  destruct ((byteLength data / 4) mod sw =? 0) eqn:Em; cbn [negb]; [|discriminate].
  destruct (sh =? byteLength data / 4 / sw) eqn:Eh; cbn [negb]; [|discriminate].
  intros [= <-].
  apply Z.eqb_neq in E0, Es. apply Z.eqb_eq in E4, Em, Eh.
  split; [reflexivity|]. split; [|split; assumption].
  apply Z.div_exact in Em; [|exact Es].
  apply Z.div_exact in E4; [|lia].
  rewrite E4, Em, <- Eh. ring.
Qed.

Section Legacy.
Context {browser : Browser}.

Lemma canvasToPng_inv (pixelData : list Z) (width height : Z)
    (r : ReconstructionResult.t) :
  canvasToPng pixelData width height = Ok r ->
  r = {| ReconstructionResult.imageBlob :=
           PngBlob {| ImageData.data := pixelData;
                      ImageData.width := width;
                      ImageData.height := height |};
         ReconstructionResult.width := width;
         ReconstructionResult.height := height |}
  /\ byteLength pixelData = 4 * width * height
  /\ byteLength pixelData <> 0 /\ width <> 0.
Proof.
  unfold canvasToPng. destruct (negb (getContext width height)); [discriminate|].
  destruct (new_ImageData pixelData width height) as [img|] eqn:E; cbn [bind];
    [|discriminate].
  destruct (toBlobPng width height); [|discriminate].
  intros [= <-]. apply new_ImageData_inv in E.
  destruct E as (-> & H1 & H2 & H3). auto.
Qed.

(** A stream whose first four bytes are neither magic number goes to
    the legacy decoder. *)
Lemma decodeSamples_other_magic (samples : list Z) :
  legacyWidth samples <> MAGIC_JPEG -> legacyWidth samples <> MAGIC_FULL ->
  decodeSamples samples = handleLegacyFormat samples.
Proof.
  intros Hj Hf. unfold decodeSamples. rewrite readMagic_legacyWidth.
  apply Z.eqb_neq in Hj, Hf. now rewrite Hj, Hf.
Qed.

(** X14. A legacy file with valid dimensions is never taken for one of
    the two newer formats: the magic numbers are far above the largest
    valid width, so a stream whose first field is at most 32768 goes to
    the legacy decoder. *)
Theorem decodeSamples_legacy_dispatch (samples : list Z) :
  legacyWidth samples <= 32768 ->
  decodeSamples samples = handleLegacyFormat samples.
Proof.
  intros Hw. apply decodeSamples_other_magic.
  - unfold MAGIC_JPEG. lia.
  - unfold MAGIC_FULL. lia.
Qed.

(** X15. What the legacy decoder hands to the canvas for a well-formed
    container: for the 12-byte header with a valid width and height and
    four channels, followed by width * height * 4 pixel bytes, one
    sample each, the image data put on the canvas has that width and
    height and exactly those bytes, and the PNG of that canvas is
    returned when the canvas works; samples after the pixels are not
    read. *)
Theorem decodeSamples_legacy (w h : Z) (pixels rest : list Z) :
  validDimensions w h -> is_bytes pixels -> byteLength pixels = 4 * w * h ->
  getContext w h = true -> toBlobPng w h = true ->
  decodeSamples (encodeSamples (legacyHeader w h 4) pixels ++ rest)
  = Ok {| ReconstructionResult.imageBlob :=
            PngBlob {| ImageData.data := pixels;
                       ImageData.width := w;
                       ImageData.height := h |};
          ReconstructionResult.width := w;
          ReconstructionResult.height := h |}.
Proof.
  intros [Hw Hh] Hp Hlen Hctx Hpng.
  set (samples := encodeSamples (legacyHeader w h 4) pixels ++ rest).
  assert (Hhdr : decodeBytes samples 0 12 = legacyHeader w h 4).
  { unfold samples. rewrite decodeBytes_header;
      [ | apply legacyHeader_is_bytes | rewrite legacyHeader_length; lia ].
    apply firstn_all2. rewrite legacyHeader_length. lia. }
  pose proof (legacyHeader_fields w h 4) as (Fw & Fh & Fc).
  assert (Hw' : legacyWidth samples = w)
    by (rewrite legacyWidth_eq, Hhdr, Fw; apply ToUint32_small; lia).
  assert (Hh' : legacyHeight samples = h)
    by (rewrite legacyHeight_eq, Hhdr, Fh; apply ToUint32_small; lia).
  assert (Hc' : legacyChannels samples = 4)
    by (rewrite legacyChannels_eq, Hhdr, Fc; apply ToUint32_small; lia).
  rewrite decodeSamples_other_magic
    by (rewrite Hw'; unfold MAGIC_JPEG, MAGIC_FULL; lia).
  rewrite handleLegacyFormat_fields, Hw', Hh', Hc'. cbv zeta.
  replace ((w <=? 0) || (w >? 32768) || (h <=? 0) || (h >? 32768)) with false
    by (symmetry; rewrite !orb_false_iff; repeat split; lia).
  unfold new_ArrayBuffer.
  replace ((w * h * 4 <? 0) || (w * h * 4 >? 2 ^ 53 - 1)) with false
    by (symmetry; rewrite orb_false_iff; split; nia).
  cbn [bind].
  replace (Z.to_nat (w * h * 4)) with (length pixels)
    by (unfold byteLength in Hlen; lia).
  replace (decodeBytesClamped samples 12 (length pixels)) with pixels.
  2:{ symmetry.
      exact (fillFromSamples_payload ToUint8Clamp (legacyHeader w h 4) pixels
               rest ToUint8Clamp_byte Hp). }
  unfold canvasToPng. rewrite Hctx. cbn [negb].
  rewrite new_ImageData_ok by (assumption || lia).
  cbn [bind]. now rewrite Hpng.
Qed.

(** X16. The legacy decoder returns an image only for four channels:
    with valid dimensions and any other channel count, the pixel array
    has the wrong size for [new ImageData] and no image comes out. *)
Theorem handleLegacyFormat_needs_four_channels (samples : list Z)
    (r : ReconstructionResult.t) :
  handleLegacyFormat samples = Ok r -> legacyChannels samples = 4.
Proof.
  rewrite handleLegacyFormat_fields. cbv zeta.
  pose proof (bytesToInt32_range (decodeBytes samples 0 12) 8) as Hc.
  rewrite <- legacyChannels_eq in Hc. revert Hc.
  generalize (legacyChannels samples) as c.
  generalize (legacyHeight samples) as h.
  generalize (legacyWidth samples) as w.
  intros w h c Hc.
  destruct ((w <=? 0) || (w >? 32768) || (h <=? 0) || (h >? 32768)) eqn:E;
    [discriminate|].
  rewrite !orb_false_iff in E. destruct E as [[[E1 E2] E3] E4].
  unfold new_ArrayBuffer.
  destruct ((w * h * c <? 0) || (w * h * c >? 2 ^ 53 - 1)); cbn [bind];
    [discriminate|].
  intros H. apply canvasToPng_inv in H. destruct H as (_ & Hlen & _ & _).
  unfold byteLength, decodeBytesClamped, fillFromSamples in Hlen.
  rewrite length_map, length_seq in Hlen.
  assert (0 <= w * h * c) by nia.
  rewrite Z2Nat.id in Hlen by assumption.
  nia.
Qed.

End Legacy.

(** A legacy container for a 1x1 image with one opaque pixel. *)
Lemma decodeSamples_legacy_dispatch_witness :
  decodeSamples (browser := Standin.browser)
    (encodeSamples (legacyHeader 1 1 4) [10; 20; 30; 255])
  = handleLegacyFormat (browser := Standin.browser)
      (encodeSamples (legacyHeader 1 1 4) [10; 20; 30; 255]).
Proof.
  apply (decodeSamples_legacy_dispatch (browser := Standin.browser)).
  vm_compute. discriminate.
Defined.

Lemma decodeSamples_legacy_witness :
  decodeSamples (browser := Standin.browser)
    (encodeSamples (legacyHeader 1 1 4) [10; 20; 30; 255] ++ [])
  = Ok {| ReconstructionResult.imageBlob :=
            PngBlob {| ImageData.data := [10; 20; 30; 255];
                       ImageData.width := 1;
                       ImageData.height := 1 |};
          ReconstructionResult.width := 1;
          ReconstructionResult.height := 1 |}.
Proof.
  apply (decodeSamples_legacy (browser := Standin.browser) 1 1 [10; 20; 30; 255] []).
  - unfold validDimensions. lia.
  - apply is_bytes_check. reflexivity.
  - reflexivity.
  - reflexivity.
  - reflexivity.
Defined.

Lemma handleLegacyFormat_needs_four_channels_witness :
  legacyChannels (encodeSamples (legacyHeader 1 1 4) [10; 20; 30; 255]) = 4.
Proof.
  apply (handleLegacyFormat_needs_four_channels (browser := Standin.browser)
           (encodeSamples (legacyHeader 1 1 4) [10; 20; 30; 255])
           {| ReconstructionResult.imageBlob :=
                PngBlob {| ImageData.data := [10; 20; 30; 255];
                           ImageData.width := 1;
                           ImageData.height := 1 |};
              ReconstructionResult.width := 1;
              ReconstructionResult.height := 1 |}).
  vm_compute. reflexivity.
Defined.

(** ** What every decoded image satisfies *)

Section Invariant.
Context {browser : Browser}.

Lemma canvasToPng_consistent (pixelData : list Z) (width height : Z)
    (r : ReconstructionResult.t) :
  0 <= width -> 0 <= height ->
  canvasToPng pixelData width height = Ok r -> consistentResult r.
Proof.
  intros Hw Hh H. apply canvasToPng_inv in H.
  destruct H as (-> & Hlen & Hne & Hw0).
  unfold consistentResult.
  cbn [ReconstructionResult.imageBlob ReconstructionResult.width
       ReconstructionResult.height ImageData.width ImageData.height
       ImageData.data].
  repeat split; try reflexivity; try assumption; nia.
Qed.

Lemma decodeSamples_consistent (samples : list Z) (r : ReconstructionResult.t) :
  decodeSamples samples = Ok r -> consistentResult r.
Proof.
  unfold decodeSamples.
  destruct (readMagic samples =? MAGIC_JPEG).
  - rewrite decodeJpeg_fields.
    destruct (new_Uint8Array (jpegLengthOf samples)); cbn [bind]; [|discriminate].
    cbv zeta. unfold getImageDimensions.
    destruct (loadImage _) as [img|] eqn:E; cbn [bind]; [|discriminate].
    intros H. apply Ok_inj in H. subst r. unfold consistentResult.
    cbn [ReconstructionResult.imageBlob ReconstructionResult.width
         ReconstructionResult.height].
    exists img. auto.
  - destruct (readMagic samples =? MAGIC_FULL).
    + rewrite decodeFull_fields.
      pose proof (bytesToInt32_range (decodeBytes samples 0 16) 4) as Hw.
      pose proof (bytesToInt32_range (decodeBytes samples 0 16) 8) as Hh.
      rewrite <- fullWidth_eq in Hw. rewrite <- fullHeight_eq in Hh.
      revert Hw Hh.
      generalize (fullHeight samples) as h. generalize (fullWidth samples) as w.
      intros w h Hw Hh.
      destruct (new_Uint8Array _); cbn [bind]; [|discriminate].
      destruct (decompressData _) as [raw|]; cbn [bind]; [|discriminate].
      destruct (negb _); [discriminate|].
      apply canvasToPng_consistent; lia.
    + rewrite handleLegacyFormat_fields. cbv zeta.
      pose proof (bytesToInt32_range (decodeBytes samples 0 12) 0) as Hw.
      pose proof (bytesToInt32_range (decodeBytes samples 0 12) 4) as Hh.
      rewrite <- legacyWidth_eq in Hw. rewrite <- legacyHeight_eq in Hh.
      revert Hw Hh.
      generalize (legacyChannels samples) as c.
      generalize (legacyHeight samples) as h.
      generalize (legacyWidth samples) as w.
      intros w h c Hw Hh.
      destruct ((w <=? 0) || (w >? 32768) || (h <=? 0) || (h >? 32768));
        [discriminate|].
      destruct (new_ArrayBuffer _); cbn [bind]; [|discriminate].
      apply canvasToPng_consistent; lia.
Qed.

(** X17. Every image [audioToImage] returns is consistent.  A PNG
    result has a positive width and height and exactly
    width * height * 4 pixel bytes, and the reported size is the size
    of its image data; a JPEG result is a stream the browser could
    load, reported with the size the browser found; a WAV blob is never
    returned. *)
Theorem audioToImage_consistent (file : list Z) (r : ReconstructionResult.t) :
  audioToImage file = Some (Ok r) -> consistentResult r.
Proof.
  unfold audioToImage.
  destruct (extractSamples file) as [[samples|e]|]; cbn [bind];
    try discriminate.
  intros [= H]. now apply decodeSamples_consistent in H.
Qed.

(** X18. A full-quality stream of fewer than 16 samples has no room for
    its header: decoding ends with the [RangeError] of the negative
    payload length, before anything is inflated. *)
Theorem decodeSamples_full_short (samples : list Z) :
  readMagic samples = MAGIC_FULL -> (length samples < 16)%nat ->
  decodeSamples samples = Throw RangeError.
Proof.
  intros Hmagic Hlen. unfold decodeSamples. rewrite Hmagic.
  change (MAGIC_FULL =? MAGIC_JPEG) with false.
  change (MAGIC_FULL =? MAGIC_FULL) with true. cbv iota.
  rewrite decodeFull_fields. unfold new_Uint8Array.
  replace (byteLength samples - 16 <? 0) with true
    by (symmetry; apply Z.ltb_lt; unfold byteLength; lia).
  reflexivity.
Qed.

(** X19. The compressed decoder hands the browser exactly as many
    bytes as the header announces: the decoded samples that are there
    and a 0 for each one missing, nothing that comes after. *)
Theorem decodeSamples_jpeg_bytes (samples : list Z) (r : ReconstructionResult.t) :
  readMagic samples = MAGIC_JPEG ->
  decodeSamples samples = Ok r ->
  let n := Z.to_nat (jpegLengthOf samples) in
  let present := firstn n (skipn 8 samples) in
  ReconstructionResult.imageBlob r
  = JpegBlob (map (fun s => ToUint8 (sampleToByte (Int s))) present
              ++ repeat 0 (n - length (skipn 8 samples))).
Proof.
  intros Hmagic. unfold decodeSamples. rewrite Hmagic.
  change (MAGIC_JPEG =? MAGIC_JPEG) with true. cbv iota.
  rewrite decodeJpeg_fields.
  destruct (new_Uint8Array (jpegLengthOf samples)); cbn [bind]; [|discriminate].
  cbv zeta. destruct (getImageDimensions _) as [[w h]|]; cbn [bind];
    [|discriminate].
  intros H. apply Ok_inj in H. subst r.
  cbn [ReconstructionResult.imageBlob]. f_equal.
  unfold decodeBytes. now rewrite fillFromSamples_split.
Qed.

End Invariant.

Lemma audioToImage_consistent_witness :
  consistentResult (browser := Standin.browser)
    {| ReconstructionResult.imageBlob :=
         PngBlob {| ImageData.data := Standin.pixels_2x2;
                    ImageData.width := 2;
                    ImageData.height := 2 |};
       ReconstructionResult.width := 2;
       ReconstructionResult.height := 2 |}.
Proof.
  apply (audioToImage_consistent (browser := Standin.browser)
           (bytesToWav (Standin.zlib_deflate Standin.pixels_2x2)
                       (fullHeader 2 2 16))).
  vm_compute. reflexivity.
Defined.

Lemma decodeSamples_full_short_witness :
  decodeSamples (browser := Standin.browser)
    (encodeSamples (int32ToBytes MAGIC_FULL) [2; 0; 0; 0])
  = Throw RangeError.
Proof.
  apply (decodeSamples_full_short (browser := Standin.browser)).
  - vm_compute. reflexivity.
  - vm_compute. lia.
Defined.

(** The compressed stream of the 2x2 image cut after ten of its
    eighteen JPEG bytes. *)
Lemma decodeSamples_jpeg_bytes_witness :
  ReconstructionResult.imageBlob
    {| ReconstructionResult.imageBlob :=
         JpegBlob [2; 2; 0; 0; 0; 240; 240; 240; 240; 240;
                   0; 0; 0; 0; 0; 0; 0; 0];
       ReconstructionResult.width := 2;
       ReconstructionResult.height := 2 |}
  = JpegBlob [2; 2; 0; 0; 0; 240; 240; 240; 240; 240; 0; 0; 0; 0; 0; 0; 0; 0].
Proof.
  apply (decodeSamples_jpeg_bytes (browser := Standin.browser)
           (firstn 18 (encodeSamples (jpegHeader 18) jpeg_2x2))).
  - vm_compute. reflexivity.
  - vm_compute. reflexivity.
Defined.

(** ** What [imageToAudio] returns *)

Lemma createWavHeader_is_bytes (dataSize : Z) : is_bytes (createWavHeader dataSize).
Proof.
  rewrite createWavHeader_layout. unfold is_bytes. rewrite !Forall_app.
  split; [apply is_bytes_check; reflexivity|].
  split; [apply int32ToBytes_is_bytes|].
  split; [apply is_bytes_check; reflexivity|].
  apply int32ToBytes_is_bytes.
Qed.

Lemma bytesToWav_is_bytes (data headerBytes : list Z) :
  is_bytes (bytesToWav data headerBytes).
Proof.
  rewrite bytesToWav_layout. apply Forall_app. split.
  - apply createWavHeader_is_bytes.
  - apply Int16Array_buffer_is_bytes.
Qed.

Lemma bytesToWav_length (data headerBytes : list Z) :
  byteLength (bytesToWav data headerBytes)
  = 44 + 2 * (byteLength headerBytes + byteLength data).
Proof.
  rewrite bytesToWav_layout. unfold byteLength.
  rewrite length_app, createWavHeader_length, Int16Array_buffer_length,
    encodeSamples_length.
  lia.
Qed.

Section Sonified.
Context {browser : Browser}.

Lemma encodePayload_header (file : list Z) (options : SonificationOptions.t)
    (payload headerBytes : list Z) (originalSize : Z) :
  encodePayload file options = Ok (payload, headerBytes, originalSize) ->
  byteLength headerBytes
  = formatHeaderLength (SonificationOptions.quality options).
Proof.
  intros H.
  destruct (SonificationOptions.quality options) eqn:Q; cbn [formatHeaderLength].
  - destruct (extractRawPixelData file) as [[raw|e]|] eqn:R.
    + rewrite (encodePayload_full _ _ raw Q R) in H.
      apply Settled_Ok_inj in H. injection H as _ <- _. reflexivity.
    + unfold encodePayload in H. rewrite Q, R in H. discriminate.
    + unfold encodePayload in H. rewrite Q, R in H. discriminate.
  - destruct (imageToJpegBlob file (jpegQualityOf options)) as [jpeg|e] eqn:J.
    + rewrite (encodePayload_compressed _ _ jpeg Q J) in H.
      apply Settled_Ok_inj in H. injection H as _ <- _. reflexivity.
    + unfold jpegQualityOf in J. unfold encodePayload in H.
      rewrite Q, J in H. discriminate.
Qed.

(** X20. The file [imageToAudio] returns, in either mode and whatever
    the browser's compressor gave: a WAV blob of bytes, 44 bytes of
    header and two bytes for each sample, one sample for each byte of
    the format header (16 at full quality, 8 compressed) and of the
    payload; the sample rate is 44100 and the duration the number of
    samples divided by it. *)
Theorem imageToAudio_output (file : list Z) (options : SonificationOptions.t)
    (r : SonificationResult.t) :
  imageToAudio file options = Ok r ->
  exists (wav payload headerBytes : list Z) (originalSize : Z),
    encodePayload file options = Ok (payload, headerBytes, originalSize)
    /\ SonificationResult.audioBlob r = WavBlob wav
    /\ is_bytes wav
    /\ byteLength wav
       = 44 + 2 * (formatHeaderLength (SonificationOptions.quality options)
                   + byteLength payload)
    /\ SonificationResult.sampleRate r = 44100
    /\ SonificationResult.duration r
       = js_div (formatHeaderLength (SonificationOptions.quality options)
                 + byteLength payload) 44100.
Proof.
  unfold imageToAudio.
  destruct (encodePayload file options)
    as [[[[payload headerBytes] originalSize]|e]|] eqn:E; cbn [await];
    try discriminate.
  intros H. apply Settled_Ok_inj in H. subst r.
  exists (bytesToWav payload headerBytes), payload, headerBytes, originalSize.
  cbn [SonificationResult.audioBlob SonificationResult.sampleRate
       SonificationResult.duration].
  rewrite <- (encodePayload_header _ _ _ _ _ E).
  split; [reflexivity|]. split; [reflexivity|].
  split; [apply bytesToWav_is_bytes|].
  split; [apply bytesToWav_length|].
  split; reflexivity.
Qed.

(** X21. What [imageToAudio] returns, the reader of [audioToImage]
    takes apart again: the file passes [validateSonifiedAudio], and the
    search finds the data chunk and extracts exactly the samples of the
    format header followed by those of the payload. *)
Theorem imageToAudio_read_back (file : list Z) (options : SonificationOptions.t)
    (r : SonificationResult.t) :
  imageToAudio file options = Ok r ->
  exists (wav payload headerBytes : list Z) (originalSize : Z),
    encodePayload file options = Ok (payload, headerBytes, originalSize)
    /\ SonificationResult.audioBlob r = WavBlob wav
    /\ validateSonifiedAudio wav = true
    /\ extractSamples wav = Some (Ok (encodeSamples headerBytes payload)).
Proof.
  unfold imageToAudio.
  destruct (encodePayload file options)
    as [[[[payload headerBytes] originalSize]|e]|] eqn:E; cbn [await];
    try discriminate.
  intros H. apply Settled_Ok_inj in H. subst r.
  exists (bytesToWav payload headerBytes), payload, headerBytes, originalSize.
  cbn [SonificationResult.audioBlob].
  split; [reflexivity|]. split; [reflexivity|].
  pose proof (encodePayload_header _ _ _ _ _ E) as Hh.
  split.
  - unfold validateSonifiedAudio. rewrite bytesToWav_layout, wav_riff.
    apply string_eqb_refl.
  - apply extractSamples_bytesToWav.
    assert (0 <= byteLength payload) by (unfold byteLength; lia).
    destruct (SonificationOptions.quality options);
      cbn [formatHeaderLength] in Hh; lia.
Qed.

(** X22. How [imageToAudio] can fail to give a result.  Its promise
    is rejected in three cases, and exactly then: the image does not
    load, the canvas gives no 2d context, or, in compressed mode, the
    canvas gives no JPEG blob.  It is never settled in one case, and
    exactly then: at full quality, for an image that loads with a width
    or a height of 0 when the context is there.  In every other case
    there is a result. *)
Theorem imageToAudio_errors (file : list Z) (options : SonificationOptions.t) :
  (forall e,
     imageToAudio file options = Throw e
     <-> match loadImage file with
         | None => e = FailedLoadImage
         | Some img =>
             if getContext (RawPixelData.width img) (RawPixelData.height img)
             then SonificationOptions.quality options = compressed
                  /\ toBlobJpeg img (jpegQualityOf options) = None
                  /\ e = FailedJpegBlob
             else e = FailedCanvasContext
         end)
  /\ (imageToAudio file options = Pending
      <-> SonificationOptions.quality options = full
          /\ exists img,
               loadImage file = Some img
               /\ getContext (RawPixelData.width img) (RawPixelData.height img)
                  = true
               /\ (RawPixelData.width img = 0 \/ RawPixelData.height img = 0))
  /\ ((exists r, imageToAudio file options = Ok r)
      <-> exists img,
            loadImage file = Some img
            /\ getContext (RawPixelData.width img) (RawPixelData.height img)
               = true
            /\ match SonificationOptions.quality options with
               | full => RawPixelData.width img <> 0
                         /\ RawPixelData.height img <> 0
               | compressed => toBlobJpeg img (jpegQualityOf options) <> None
               end).
Proof.
  split; [|split].
  - intros e.
    unfold imageToAudio, encodePayload, imageToJpegBlob, extractRawPixelData,
      jpegQualityOf.
    destruct (SonificationOptions.quality options);
      (destruct (loadImage file) as [img|]; cbn [bind await];
       [destruct (getContext _ _); cbn [negb bind await]|]).
    + destruct (_ || _); cbn [await]; split; try discriminate;
        now intros [[=] _].
    + split; [now intros [= <-] | now intros ->].
    + split; [now intros [= <-] | now intros ->].
    + destruct (toBlobJpeg img _); cbn [bind await].
      * split; [discriminate|]. now intros (_ & [=] & _).
      * split; [now intros [= <-] | now intros (_ & _ & ->)].
    + split; [now intros [= <-] | now intros ->].
    + split; [now intros [= <-] | now intros ->].
  - unfold imageToAudio, encodePayload, imageToJpegBlob, extractRawPixelData.
    destruct (SonificationOptions.quality options).
    + destruct (loadImage file) as [img|]; cbn [await].
      * destruct (getContext _ _) eqn:Hctx; cbn [negb await].
        -- destruct (_ || _) eqn:Hz; cbn [await].
           ++ split; [intros _|reflexivity]. split; [reflexivity|].
              exists img. split; [reflexivity|]. split; [exact Hctx|].
              apply orb_true_iff in Hz. lia.
           ++ split; [discriminate|]. intros (_ & img' & [= <-] & _ & Hz').
              apply orb_false_iff in Hz. lia.
        -- split; [discriminate|]. intros (_ & img' & [= <-] & Hc & _).
           congruence.
      * split; [discriminate|]. now intros (_ & img' & [=] & _).
    + split; [|now intros [[=] _]].
      destruct (loadImage file) as [img|]; cbn [bind await]; [|discriminate].
      destruct (negb _); cbn [bind await]; [discriminate|].
      destruct (toBlobJpeg img _); cbn [bind await]; discriminate.
  - unfold imageToAudio, encodePayload, imageToJpegBlob, extractRawPixelData,
      jpegQualityOf.
    destruct (loadImage file) as [img|].
    + destruct (getContext _ _) eqn:Hctx; cbn [negb].
      * destruct (SonificationOptions.quality options).
        -- destruct (_ || _) eqn:Hz; cbn [await].
           ++ split; [now intros [r [=]]|].
              intros (img' & [= <-] & _ & Hw & Hh).
              apply orb_true_iff in Hz. lia.
           ++ split; [intros _|eauto].
              exists img. split; [reflexivity|]. split; [exact Hctx|].
              apply orb_false_iff in Hz. lia.
        -- destruct (toBlobJpeg img _) as [jpeg|] eqn:Hj; cbn [bind await].
           ++ split; [intros _|eauto].
              exists img. split; [reflexivity|]. split; [exact Hctx|].
              rewrite Hj. discriminate.
           ++ split; [now intros [r [=]]|].
              now intros (img' & [= <-] & _ & Hne).
      * destruct (SonificationOptions.quality options); cbn [bind await];
          (split; [now intros [r [=]]|]);
          intros (img' & [= <-] & Hc & _); congruence.
    + destruct (SonificationOptions.quality options); cbn [bind await];
        (split; [now intros [r [=]]|]); now intros (img' & [=] & _).
Qed.

End Sonified.

Lemma imageToAudio_output_witness :
  exists (wav payload headerBytes : list Z) (originalSize : Z),
    encodePayload (browser := Standin.browser) Standin.file_2x2 full_options
    = Ok (payload, headerBytes, originalSize)
    /\ SonificationResult.audioBlob result_2x2 = WavBlob wav
    /\ is_bytes wav
    /\ byteLength wav = 44 + 2 * (16 + byteLength payload)
    /\ SonificationResult.sampleRate result_2x2 = 44100
    /\ SonificationResult.duration result_2x2
       = js_div (16 + byteLength payload) 44100.
Proof.
  apply (imageToAudio_output (browser := Standin.browser)
           Standin.file_2x2 full_options result_2x2).
  vm_compute. reflexivity.
Defined.

Lemma imageToAudio_read_back_witness :
  exists (wav payload headerBytes : list Z) (originalSize : Z),
    encodePayload (browser := Standin.browser) Standin.file_2x2 full_options
    = Ok (payload, headerBytes, originalSize)
    /\ SonificationResult.audioBlob result_2x2 = WavBlob wav
    /\ validateSonifiedAudio wav = true
    /\ extractSamples wav = Some (Ok (encodeSamples headerBytes payload)).
Proof.
  apply (imageToAudio_read_back (browser := Standin.browser)
           Standin.file_2x2 full_options result_2x2).
  vm_compute. reflexivity.
Defined.

(** ** The page component *)

Lemma beforeFirstDot_no_dot (name : list Z) : ~ In 46 (beforeFirstDot name).
Proof.
  induction name as [|c rest IH]; cbn [beforeFirstDot]; [easy|].
  destruct (c =? 46) eqn:E; [easy|].
  cbn [In]. intros [H | H]; [lia | contradiction].
Qed.

Lemma beforeFirstDot_app (a b : list Z) :
  beforeFirstDot (a ++ 46 :: b) = beforeFirstDot a.
Proof.
  induction a as [|c a IH]; cbn [app beforeFirstDot]; [reflexivity|].
  destruct (c =? 46); [reflexivity|]. now rewrite IH.
Qed.

Lemma beforeFirstDot_id (name : list Z) :
  ~ In 46 name -> beforeFirstDot name = name.
Proof.
  induction name as [|c rest IH]; cbn [beforeFirstDot In]; [reflexivity|].
  intros H. destruct (c =? 46) eqn:E; [lia|].
  rewrite IH; tauto.
Qed.

(** X23. The name [handleDownload] gives the download: a base that is
    never empty and holds no dot, followed by ".wav" or ".png" by mode.
    The base is what stands before the first dot of the uploaded
    file's name, so everything from the first dot on is lost, not only
    the extension; a name that starts with a dot, an empty name and no
    file give "sonified" or "reconstructed". *)
Theorem downloadFileName_shape (mode : Mode) (uploadedFile : option (list Z)) :
  let extension :=
    match mode with
    | image_to_wav => str ".wav"
    | wav_to_image => str ".png"
    end in
  let fallback :=
    match mode with
    | image_to_wav => str "sonified"
    | wav_to_image => str "reconstructed"
    end in
  exists base,
    downloadFileName mode uploadedFile = base ++ extension
    /\ base <> [] /\ ~ In 46 base
    /\ match uploadedFile with
       | None => base = fallback
       | Some name =>
           (forall c a b, ~ In 46 (c :: a) -> name = (c :: a) ++ 46 :: b ->
                          base = c :: a)
           /\ (~ In 46 name -> name <> [] -> base = name)
           /\ (forall b, name = [] \/ name = 46 :: b -> base = fallback)
       end.
Proof.
  cbv zeta. unfold downloadFileName.
  destruct uploadedFile as [name|].
  - pose proof (beforeFirstDot_no_dot name) as Hdot.
    assert (Hfb : forall fallback, fallback <> [] -> ~ In 46 fallback ->
              orElse (beforeFirstDot name) fallback <> []
              /\ ~ In 46 (orElse (beforeFirstDot name) fallback)
              /\ (forall c a b, ~ In 46 (c :: a) -> name = (c :: a) ++ 46 :: b ->
                    orElse (beforeFirstDot name) fallback = c :: a)
              /\ (~ In 46 name -> name <> [] ->
                    orElse (beforeFirstDot name) fallback = name)
              /\ (forall b : list Z, name = [] \/ name = 46 :: b ->
                    orElse (beforeFirstDot name) fallback = fallback)).
    { intros fallback Hne Hnd. split; [|split; [|split; [|split]]].
      - destruct (beforeFirstDot name); [exact Hne | discriminate].
      - destruct (beforeFirstDot name); [exact Hnd | exact Hdot].
      - intros c a b Hca ->. rewrite beforeFirstDot_app, beforeFirstDot_id by exact Hca.
        reflexivity.
      - intros Hn Hne'. rewrite beforeFirstDot_id by exact Hn.
        destruct name; [contradiction | reflexivity].
      - intros b [-> | ->]; reflexivity. }
    destruct mode.
    + exists (orElse (beforeFirstDot name) (str "sonified")).
      split; [reflexivity|]. apply Hfb; [discriminate|].
      vm_compute. intuition discriminate.
    + exists (orElse (beforeFirstDot name) (str "reconstructed")).
      split; [reflexivity|]. apply Hfb; [discriminate|].
      vm_compute. intuition discriminate.
  - destruct mode.
    + exists (str "sonified"). split; [reflexivity|].
      split; [discriminate|]. split; [|reflexivity].
      vm_compute. intuition discriminate.
    + exists (str "reconstructed"). split; [reflexivity|].
      split; [discriminate|]. split; [|reflexivity].
      vm_compute. intuition discriminate.
Qed.

(** X24. [cycleTheme] always sets one of the three themes; from one of
    them it moves to another one and is back after three steps; from
    any other value (an unset theme) it goes to "light". *)
Theorem cycleTheme_cycles (theme : list Z) :
  In (cycleTheme theme) themes
  /\ (In theme themes ->
      cycleTheme theme <> theme
      /\ cycleTheme (cycleTheme (cycleTheme theme)) = theme)
  /\ (~ In theme themes -> cycleTheme theme = str "light").
Proof.
  assert (Hin : In theme themes
                \/ (~ In theme themes /\ indexOfFrom themes theme 0 = -1)).
  { unfold themes. cbn [indexOfFrom In].
    destruct (string_eqb (str "light") theme) eqn:E1;
      [apply string_eqb_eq in E1; tauto|].
    destruct (string_eqb (str "dark") theme) eqn:E2;
      [apply string_eqb_eq in E2; tauto|].
    destruct (string_eqb (str "system") theme) eqn:E3;
      [apply string_eqb_eq in E3; tauto|].
    right. split; [|reflexivity].
    intros [H | [H | [H | []]]]; apply string_eqb_eq in H; congruence. }
  destruct Hin as [Hin | [Hout Hidx]].
  - destruct Hin as [<- | [<- | [<- | []]]];
      (split; [vm_compute; tauto|]);
      (split; [intros _; split; [discriminate | reflexivity]|]);
      intros H; exfalso; apply H; cbn [themes In]; tauto.
  - assert (E : cycleTheme theme = str "light")
      by (unfold cycleTheme; cbv zeta; rewrite Hidx; reflexivity).
    split; [rewrite E; vm_compute; tauto|].
    split; [contradiction|]. intros _. exact E.
Qed.
